(** * TIMS inventory backend ([src/tims/backend.py]): a shallow embedding

    The Flask application keeps two module-level dictionaries ([products],
    [suppliers]) and two id counters, and answers eight routes.  Every
    handler is embedded as a function from the store and the parsed request
    to an outcome and the store after the request.

    Modelling choices, all local to this file:
    - a parsed JSON value is a [json]; JSON numbers are the integers
      (a number with a fraction or an exponent, a Python [float], is not
      part of the model);
    - a string is a sequence of code points below 256;
    - a JSON object and a product record are finite maps from strings
      ([gmap string json]): no claim depends on the order of the keys of a
      record;
    - [products] and [suppliers] are Python dicts with integer keys whose
      iteration order (insertion order) is observable: association lists;
    - an uncaught Python exception is the outcome [Raise] when the module
      state is still as the handler found it, and [Wrote] with the state
      left behind when the handler had assigned to it: [update_product]
      and [update_stock] assign first and serialise the record afterwards;
    - [jsonify] fails on an integer of more than 4300 decimal digits
      (CPython's limit on the conversion of an integer to a string).  Only
      a stock adjustment computes an integer; every other integer of a
      record was read from a request body by the JSON parser, which has
      the same limit, or is a counter;
    - the few places where the embedding does not follow Python (ordering
      two lists, a [dict.update] that would add a key that is not a string
      or that reads a pair off a two-key object) are the outcome
      [NotModelled];
    - the request body is a JSON object, as every handler assumes when it
      calls [auth_data.get]. *)

From stdpp Require Import gmap strings list fin_maps sorting.
From Stdlib Require Import ZArith Ascii String.

Local Open Scope Z_scope.

(** ** JSON values and the Python operations the handlers apply to them *)

#[warnings="-register-all"]
Inductive json : Type :=
  | JNull
  | JBool (b : bool)
  | JInt (z : Z)
  | JStr (s : string)
  | JList (l : list json)
  | JObj (m : gmap string json).

(** A record (a product, a supplier, a request body). *)
Abbreviation record := (gmap string json).

(** The module-level state: the two collections, integer-keyed dicts in
    insertion order, and the two counters. *)
Record store : Type := Store {
  products : list (Z * record);
  product_id_counter : Z;
  suppliers : list (Z * record);
  supplier_id_counter : Z
}.

Inductive exn : Type := TypeError | AttributeError | KeyError | ValueError.

(** The outcome of a piece of Python: a value; an uncaught exception with
    the module state as the handler found it; an uncaught exception raised
    by or after an assignment to the module state, with the state the
    handler leaves behind; or a situation the embedding does not cover. *)
Inductive res (A : Type) : Type :=
  | Ok (a : A)
  | Raise (e : exn)
  | Wrote (e : exn) (st : store)
  | NotModelled.
Arguments Ok {A} a.
Arguments Raise {A} e.
Arguments Wrote {A} e st.
Arguments NotModelled {A}.

Definition res_bind {A B} (x : res A) (f : A → res B) : res B :=
  match x with
  | Ok a => f a
  | Raise e => Raise e
  | Wrote e st => Wrote e st
  | NotModelled => NotModelled
  end.

Notation "'let!' x ':=' e 'in' k" := (res_bind e (λ x, k))
  (at level 10, x name, e at level 100, k at level 200, only parsing).

(** [d.get(k)] and [d.get(k, default)]: a missing key reads as [None]
    (which is also what JSON [null] parses to) or as the default. *)
Definition dict_get (d : record) (k : string) : json := default JNull (d !! k).
Definition dict_get_default (d : record) (k : string) (dflt : json) : json :=
  default dflt (d !! k).

(** [d[k]]: [KeyError] on a missing key. *)
Definition dict_item (d : record) (k : string) : res json :=
  match d !! k with
  | Some v => Ok v
  | None => Raise KeyError
  end.

(** Python truth value of a parsed JSON value. *)
Definition truthy (v : json) : bool :=
  match v with
  | JNull => false
  | JBool b => b
  | JInt z => negb (z =? 0)
  | JStr s => negb (String.eqb s "")
  | JList l => match l with [] => false | _ => true end
  | JObj m => negb (bool_decide (m = ∅))
  end.

(** [hash(v)] succeeds: lists and dicts are unhashable. *)
Definition hashable (v : json) : bool :=
  match v with
  | JList _ | JObj _ => false
  | _ => true
  end.

(** [v == s] for a string literal or a stored string [s]. *)
Definition eq_str (v : json) (s : string) : bool :=
  match v with
  | JStr t => String.eqb t s
  | _ => false
  end.

(** [v in [s1, s2, ...]] for a list of string literals. *)
Definition in_strs (v : json) (l : list string) : bool := existsb (eq_str v) l.

(** [isinstance(v, int)]: [bool] is a subclass of [int]. *)
Definition isinstance_int (v : json) : bool :=
  match v with
  | JBool _ | JInt _ => true
  | _ => false
  end.

(** The integer an [int] or a [bool] stands for in arithmetic and
    comparisons. *)
Definition as_int (v : json) : option Z :=
  match v with
  | JInt z => Some z
  | JBool b => Some (if b then 1 else 0)
  | _ => None
  end.

(** [v == 0]. *)
Definition eq_zero (v : json) : bool :=
  match as_int v with
  | Some z => z =? 0
  | None => false
  end.

(** ** Strings: [str.lower] and the substring test [a in b] *)

Definition lower_char (c : ascii) : ascii :=
  let n := N_of_ascii c in
  if (((65 <=? n) && (n <=? 90))
      || ((192 <=? n) && (n <=? 222) && negb (n =? 215)))%N
  then ascii_of_N (n + 32) else c.

Fixpoint lower (s : string) : string :=
  match s with
  | EmptyString => EmptyString
  | String c s' => String (lower_char c) (lower s')
  end.

Fixpoint starts_with (p s : string) : bool :=
  match p, s with
  | EmptyString, _ => true
  | String a p', String b s' => Ascii.eqb a b && starts_with p' s'
  | String _ _, EmptyString => false
  end.

(** [needle in hay] on two strings. *)
Fixpoint str_in (needle hay : string) : bool :=
  starts_with needle hay ||
  match hay with
  | EmptyString => false
  | String _ hay' => str_in needle hay'
  end.

(** [k in v] for a string [k] and an arbitrary parsed value [v]: key
    membership on a dict, substring on a string, element test on a list,
    [TypeError] on anything else. *)
Definition py_contains (k : string) (v : json) : res bool :=
  match v with
  | JObj m => Ok (bool_decide (is_Some (m !! k)))
  | JStr s => Ok (str_in k s)
  | JList l => Ok (existsb (λ x, eq_str x k) l)
  | _ => Raise TypeError
  end.

(** [all(k in v for k in ks)]: stops at the first missing key. *)
Fixpoint all_contained (ks : list string) (v : json) : res bool :=
  match ks with
  | [] => Ok true
  | k :: ks' =>
      let! b := py_contains k v in
      if b then all_contained ks' v else Ok false
  end.

(** [v[k]] for a string [k]: only a dict can be indexed by a string. *)
Definition py_item (v : json) (k : string) : res json :=
  match v with
  | JObj m => dict_item m k
  | _ => Raise TypeError
  end.

(** [a < b] and [a <= 0]. *)
Definition py_lt (a b : json) : res bool :=
  match as_int a, as_int b with
  | Some x, Some y => Ok (x <? y)
  | _, _ =>
      match a, b with
      | JStr s, JStr t => Ok (String.ltb s t)
      | JList _, JList _ => NotModelled
      | _, _ => Raise TypeError
      end
  end.

Definition py_le_zero (a : json) : res bool :=
  match as_int a with
  | Some x => Ok (x <=? 0)
  | None => Raise TypeError
  end.

(** [a + c] as computed by [a += c] for an integer [c]. *)
Definition py_add_int (a : json) (c : Z) : res json :=
  match as_int a with
  | Some x => Ok (JInt (x + c))
  | None => Raise TypeError
  end.

(** [[p for p in l if f(p)]] where [f] may raise. *)
Fixpoint filter_res {A} (f : A → res bool) (l : list A) : res (list A) :=
  match l with
  | [] => Ok []
  | x :: l' =>
      let! b := f x in
      let! r := filter_res f l' in
      Ok (if b then x :: r else r)
  end.

(** ** Python dicts with integer keys, in insertion order *)

Section int_dict.
Context {V : Type}.

Fixpoint idict_get (k : Z) (d : list (Z * V)) : option V :=
  match d with
  | [] => None
  | (k', v) :: d' => if decide (k = k') then Some v else idict_get k d'
  end.

(** [d[k] = v]: an existing key keeps its place, a new one goes last. *)
Fixpoint idict_set (k : Z) (v : V) (d : list (Z * V)) : list (Z * V) :=
  match d with
  | [] => [(k, v)]
  | (k', v') :: d' =>
      if decide (k = k') then (k, v) :: d' else (k', v') :: idict_set k v d'
  end.

(** [del d[k]]. *)
Fixpoint idict_del (k : Z) (d : list (Z * V)) : list (Z * V) :=
  match d with
  | [] => []
  | (k', v') :: d' =>
      if decide (k = k') then d' else (k', v') :: idict_del k d'
  end.

Definition idict_keys (d : list (Z * V)) : list Z := d.*1.
Definition idict_values (d : list (Z * V)) : list V := d.*2.
End int_dict.

Arguments idict_keys : simpl never.
Arguments idict_values : simpl never.

(** ** The module-level state *)

Record user : Type := User { user_password : string; user_role : string }.

Definition users : gmap string user :=
  list_to_map
    [ ("admin", User "adminpassword" "Admin");
      ("manager", User "managerpassword" "Manager");
      ("staff", User "staffpassword" "Staff") ].

(** A dict literal. *)
Definition obj (l : list (string * json)) : record := list_to_map l.

Definition mk_product (id : Z) (name category : string) (stock reorder : Z)
  : record :=
  obj [ ("id", JInt id); ("name", JStr name); ("category", JStr category);
        ("stock_level", JInt stock); ("reorder_point", JInt reorder) ].

Definition mk_supplier (id : Z) (name contact : string) : record :=
  obj [ ("id", JInt id); ("name", JStr name); ("contact_info", JStr contact) ].

Definition initial_store : store :=
  {| products :=
       [ (1, mk_product 1 "Fiber Optic Cable" "Cables" 500 100);
         (2, mk_product 2 "Router X-500" "Networking" 50 20);
         (3, mk_product 3 "Modem Pro-100" "Networking" 75 15);
         (4, mk_product 4 "Satellite Dish" "Antennas" 10 5) ];
     product_id_counter := 5;
     suppliers :=
       [ (1, mk_supplier 1 "Global Telecom Solutions" "contact@globaltele.com");
         (2, mk_supplier 2 "FiberLink Inc." "sales@fiberlink.net") ];
     supplier_id_counter := 3 |}.

Definition set_products (st : store) (ps : list (Z * record)) : store :=
  {| products := ps;
     product_id_counter := product_id_counter st;
     suppliers := suppliers st;
     supplier_id_counter := supplier_id_counter st |}.

(** ** Responses *)

Record response : Type := Response { status : Z; body : json }.

(** [jsonify({"error": msg}), code]. *)
Definition error_response (code : Z) (msg : string) : response :=
  Response code (JObj (obj [("error", JStr msg)])).

(** ** Serialisation *)

(** [jsonify] writes an integer in decimal, and CPython refuses to convert
    an integer of more than [sys.int_info.default_max_str_digits] digits
    to a string: [ValueError].  The sign does not count. *)
Definition int_max_str_digits : Z := 4300.

(** The least integer that is refused, evaluated once. *)
Definition int_limit : Z := Eval vm_compute in 10 ^ int_max_str_digits.

Definition int_serialisable (z : Z) : bool := Z.abs z <? int_limit.
Arguments int_serialisable : simpl never.

Fixpoint serialisable (v : json) : bool :=
  match v with
  | JInt z => int_serialisable z
  | JList l => forallb serialisable l
  | JObj m => map_fold (λ _ x b, serialisable x && b) true m
  | JNull | JBool _ | JStr _ => true
  end.

Definition jsonify (v : json) : res json :=
  if serialisable v then Ok v else Raise ValueError.

(** [return jsonify(v)] as the last statement of a handler that has
    assigned to the module state, which is [st'] by then: when the
    serialisation raises, the assignment stays. *)
Definition respond (code : Z) (v : json) (st' : store)
  : res (response * store) :=
  match jsonify v with
  | Ok b => Ok (Response code b, st')
  | Raise e | Wrote e _ => Wrote e st'
  | NotModelled => NotModelled
  end.
Arguments jsonify : simpl never.
Arguments respond : simpl never.

(** ** The role helper *)

(** [users.get(username)] hashes its argument first; a username that is not
    a string equals no key.  A user record is a non-empty dict, hence true. *)
Definition get_user_role (username password : json) : res json :=
  if hashable username then
    match username with
    | JStr name =>
        match users !! name with
        | Some user =>
            if eq_str password (user_password user)
            then Ok (JStr (user_role user))
            else Ok JNull
        | None => Ok JNull
        end
    | _ => Ok JNull
    end
  else Raise TypeError.

Definition request_role (auth_data : record) : res json :=
  get_user_role (dict_get auth_data "username") (dict_get auth_data "password").

(** ** The handlers

    [login], [add_product], [add_supplier] and [get_suppliers] serialise
    values of request bodies and counters only, and [delete_product] and
    the error answers fixed strings: their [jsonify] is written as the
    value itself.  [get_products], [update_product] and [update_stock]
    serialise stored products, whose stock level may be the result of an
    addition: there [jsonify] is the function above. *)

Definition login (auth_data : record) : res response :=
  let username := dict_get auth_data "username" in
  let password := dict_get auth_data "password" in
  let! role := get_user_role username password in
  if truthy role
  then Ok (Response 200
             (JObj (obj [ ("message", JStr "Login successful");
                          ("username", username); ("role", role) ])))
  else Ok (error_response 401 "Invalid credentials").

(** [p['name'].lower()]: only a string has [lower]. *)
Definition py_lower (v : json) : res string :=
  match v with
  | JStr s => Ok (lower s)
  | _ => Raise AttributeError
  end.

(** [query in p[field].lower()]. *)
Definition field_contains (field query : string) (p : record) : res bool :=
  let! v := dict_item p field in
  let! s := py_lower v in
  Ok (str_in query s).

(** [p['stock_level'] < p['reorder_point']]. *)
Definition is_low (p : record) : res bool :=
  let! a := dict_item p "stock_level" in
  let! b := dict_item p "reorder_point" in
  py_lt a b.

(** [p['stock_level'] <= 0]. *)
Definition is_out_of_stock (p : record) : res bool :=
  let! a := dict_item p "stock_level" in
  py_le_zero a.

Definition nonempty (s : string) : bool := negb (String.eqb s "").

(** [request.args.get(k, '').lower()]. *)
Definition arg_lower (args : gmap string string) (k : string) : string :=
  lower (default "" (args !! k)).

Definition get_products (args : gmap string string) (st : store)
  : res response :=
  let name_query := arg_lower args "name" in
  let category_query := arg_lower args "category" in
  let stock_status_query := arg_lower args "stock_status" in
  let filtered_products := idict_values (products st) in
  let! filtered_products :=
    if nonempty name_query
    then filter_res (field_contains "name" name_query) filtered_products
    else Ok filtered_products in
  let! filtered_products :=
    if nonempty category_query
    then filter_res (field_contains "category" category_query) filtered_products
    else Ok filtered_products in
  let! filtered_products :=
    if nonempty stock_status_query then
      if String.eqb stock_status_query "low"
      then filter_res is_low filtered_products
      else if String.eqb stock_status_query "out of stock"
      then filter_res is_out_of_stock filtered_products
      else Ok filtered_products
    else Ok filtered_products in
  let! b := jsonify (JList (JObj <$> filtered_products)) in
  Ok (Response 200 b).

(** [not data or not all(k in data for k in keys)]. *)
Definition missing_keys (data : json) (keys : list string) : res bool :=
  if negb (truthy data) then Ok true
  else let! a := all_contained keys data in Ok (negb a).

Definition add_product (auth_data : record) (st : store)
  : res (response * store) :=
  let! role := request_role auth_data in
  if negb (in_strs role ["Admin"; "Manager"])
  then Ok (error_response 403 "Unauthorized access", st)
  else
    let product_data := dict_get_default auth_data "product" (JObj ∅) in
    let! invalid :=
      missing_keys product_data
        ["name"; "category"; "stock_level"; "reorder_point"] in
    if invalid
    then Ok (error_response 400 "Invalid product data", st)
    else
      let! name := py_item product_data "name" in
      let! category := py_item product_data "category" in
      let! stock_level := py_item product_data "stock_level" in
      let! reorder_point := py_item product_data "reorder_point" in
      let new_product :=
        obj [ ("id", JInt (product_id_counter st)); ("name", name);
              ("category", category); ("stock_level", stock_level);
              ("reorder_point", reorder_point) ] in
      Ok (Response 201 (JObj new_product),
          {| products :=
               idict_set (product_id_counter st) new_product (products st);
             product_id_counter := product_id_counter st + 1;
             suppliers := suppliers st;
             supplier_id_counter := supplier_id_counter st |}).

(** One element of a sequence given to [dict.update].  The element is
    turned into a sequence ([TypeError] for a number, a bool or [None]),
    which must have length two ([ValueError] otherwise); its first item is
    the key, which is hashed ([TypeError] for a list or a dict), and its
    second item the value.  A string of two characters stands for its two
    characters.  Two cases are left out: a key that is a number, a bool or
    [None] (the keys of a record are strings here), and an object with two
    keys (which stands for its two keys in their order, and the order of
    the keys of an object is not kept). *)
Definition update_pair (x : json) : res (string * json) :=
  match x with
  | JList [k; v] =>
      match k with
      | JStr s => Ok (s, v)
      | JList _ | JObj _ => Raise TypeError
      | JNull | JBool _ | JInt _ => NotModelled
      end
  | JList _ => Raise ValueError
  | JStr (String a (String b EmptyString)) =>
      Ok (String a EmptyString, JStr (String b EmptyString))
  | JStr _ => Raise ValueError
  | JObj m => if decide (size m = 2%nat) then NotModelled else Raise ValueError
  | JNull | JBool _ | JInt _ => Raise TypeError
  end.

(** The elements are applied one after the other: when one of them
    raises, the pairs before it have been stored. *)
Fixpoint update_pairs (product : record) (l : list json)
  : record * res unit :=
  match l with
  | [] => (product, Ok ())
  | x :: l' =>
      match update_pair x with
      | Ok (k, v) => update_pairs (<[k := v]> product) l'
      | failed => (product, let! _ := failed in Ok ())
      end
  end.

(** [product.update(update_data)]: the record as the call leaves it, and
    how the call ends.  A dict is merged key by key; any other argument is
    iterated as a sequence of pairs, so that a number, a bool or [None] is
    a [TypeError], a non-empty string a [ValueError] (its first element
    has length one) and an empty string or list changes nothing. *)
Definition dict_update (product : record) (update_data : json)
  : record * res unit :=
  match update_data with
  | JObj m => (m ∪ product, Ok ())
  | JStr s => (product, if nonempty s then Raise ValueError else Ok ())
  | JList l => update_pairs product l
  | JNull | JBool _ | JInt _ => (product, Raise TypeError)
  end.

(** [products.get(product_id)] followed by [if not product]: a missing key
    and an empty record are both "not found". *)
Definition find_product (product_id : Z) (st : store) : option record :=
  match idict_get product_id (products st) with
  | Some product => if bool_decide (product = ∅) then None else Some product
  | None => None
  end.

Definition update_product (product_id : Z) (auth_data : record) (st : store)
  : res (response * store) :=
  let! role := request_role auth_data in
  if negb (in_strs role ["Admin"; "Manager"])
  then Ok (error_response 403 "Unauthorized access", st)
  else
    match find_product product_id st with
    | None => Ok (error_response 404 "Product not found", st)
    | Some product =>
        let update_data := dict_get_default auth_data "product" (JObj ∅) in
        let updated := dict_update product update_data in
        let product := updated.1 in
        let st' :=
          set_products st (idict_set product_id product (products st)) in
        match updated.2 with
        | Ok _ => respond 200 (JObj product) st'
        | Raise e | Wrote e _ => Wrote e st'
        | NotModelled => NotModelled
        end
    end.

Definition delete_product (product_id : Z) (auth_data : record) (st : store)
  : res (response * store) :=
  let! role := request_role auth_data in
  if negb (eq_str role "Admin")
  then Ok (error_response 403 "Unauthorized access", st)
  else if negb (bool_decide (is_Some (idict_get product_id (products st))))
  then Ok (error_response 404 "Product not found", st)
  else
    Ok (Response 200 (JObj (obj [("message", JStr "Product deleted")])),
        set_products st (idict_del product_id (products st))).

Definition update_stock (product_id : Z) (auth_data : record) (st : store)
  : res (response * store) :=
  let! role := request_role auth_data in
  if negb (in_strs role ["Admin"; "Manager"; "Staff"])
  then Ok (error_response 403 "Unauthorized access", st)
  else
    match find_product product_id st with
    | None => Ok (error_response 404 "Product not found", st)
    | Some product =>
        let change := dict_get_default auth_data "change" (JInt 0) in
        if negb (isinstance_int change) || eq_zero change
        then Ok (error_response 400 "Invalid stock change value", st)
        else
          let! old := dict_item product "stock_level" in
          let! new := py_add_int old (default 0 (as_int change)) in
          let product := <["stock_level" := new]> product in
          respond 200 (JObj product)
            (set_products st (idict_set product_id product (products st)))
    end.

Definition get_suppliers (st : store) : res response :=
  Ok (Response 200 (JList (JObj <$> idict_values (suppliers st)))).

Definition add_supplier (auth_data : record) (st : store)
  : res (response * store) :=
  let! role := request_role auth_data in
  if negb (eq_str role "Admin")
  then Ok (error_response 403 "Unauthorized access", st)
  else
    let supplier_data := dict_get_default auth_data "supplier" (JObj ∅) in
    let! invalid := missing_keys supplier_data ["name"] in
    if invalid
    then Ok (error_response 400 "Invalid supplier data", st)
    else
      let! name := py_item supplier_data "name" in
      let contact_info :=
        match supplier_data with
        | JObj m => dict_get_default m "contact_info" (JStr "")
        | _ => JStr ""
        end in
      let new_supplier :=
        obj [ ("id", JInt (supplier_id_counter st)); ("name", name);
              ("contact_info", contact_info) ] in
      Ok (Response 201 (JObj new_supplier),
          {| products := products st;
             product_id_counter := product_id_counter st;
             suppliers :=
               idict_set (supplier_id_counter st) new_supplier (suppliers st);
             supplier_id_counter := supplier_id_counter st + 1 |}).

(** ** The router and runs of the server *)

Inductive request : Type :=
  | PostLogin (auth_data : record)
  | GetProducts (args : gmap string string)
  | PostProducts (auth_data : record)
  | PutProduct (product_id : Z) (auth_data : record)
  | DeleteProduct (product_id : Z) (auth_data : record)
  | PutStock (product_id : Z) (auth_data : record)
  | GetSuppliers
  | PostSuppliers (auth_data : record).

Definition handle (req : request) (st : store) : res (response * store) :=
  match req with
  | PostLogin a => let! r := login a in Ok (r, st)
  | GetProducts args => let! r := get_products args st in Ok (r, st)
  | PostProducts a => add_product a st
  | PutProduct i a => update_product i a st
  | DeleteProduct i a => delete_product i a st
  | PutStock i a => update_stock i a st
  | GetSuppliers => let! r := get_suppliers st in Ok (r, st)
  | PostSuppliers a => add_supplier a st
  end.

(** One request served.  An uncaught exception is answered 500 by Flask,
    and what the handler had assigned before it was raised stays.  For a
    request the embedding does not cover the store that follows is not
    known (such a request is a [PUT /products/{id}], which touches one
    product record, or a [GET /products], which touches nothing): the
    store is passed on as it was, and the properties that depend on the
    products take runs in which every outcome is [modelled]. *)
Definition serve (req : request) (st : store) : res response * store :=
  match handle req st with
  | Ok (r, st') => (Ok r, st')
  | Raise e => (Raise e, st)
  | Wrote e st' => (Raise e, st')
  | NotModelled => (NotModelled, st)
  end.

Fixpoint run (st : store) (reqs : list request) : list (res response) * store :=
  match reqs with
  | [] => ([], st)
  | req :: reqs' =>
      let '(o, st') := serve req st in
      let '(os, st'') := run st' reqs' in
      (o :: os, st'')
  end.

Definition modelled (o : res response) : Prop := o ≠ NotModelled.

(** The id a create request was answered with. *)
Definition created_id (o : res response) : option Z :=
  match o with
  | Ok (Response 201 (JObj m)) =>
      match m !! "id" with
      | Some (JInt i) => Some i
      | _ => None
      end
  | _ => None
  end.

Definition created_product_id (req : request) (o : res response) : option Z :=
  match req with
  | PostProducts _ => created_id o
  | _ => None
  end.

Definition created_supplier_id (req : request) (o : res response) : option Z :=
  match req with
  | PostSuppliers _ => created_id o
  | _ => None
  end.

(** The ids handed out during a run, oldest first. *)
Fixpoint assigned (f : request → res response → option Z)
    (reqs : list request) (outs : list (res response)) : list Z :=
  match reqs, outs with
  | req :: reqs', o :: outs' =>
      match f req o with
      | Some i => i :: assigned f reqs' outs'
      | None => assigned f reqs' outs'
      end
  | _, _ => []
  end.

(** The id a stored record reports, as [GET /products] shows it. *)
Definition record_id (p : record) : option json := p !! "id".

Definition product_ids (st : store) : list (option json) :=
  record_id <$> idict_values (products st).

(** ** Request bodies used in the examples *)

Definition credentials (username password : string) : record :=
  obj [("username", JStr username); ("password", JStr password)].

Definition admin_auth : record := credentials "admin" "adminpassword".
Definition manager_auth : record := credentials "manager" "managerpassword".
Definition staff_auth : record := credentials "staff" "staffpassword".

(** ** The vocabulary of the properties *)

(** What [get_user_role] computes, as a relation on the credentials. *)
Definition credentials_match (username password : json) (name role : string)
  : Prop :=
  username = JStr name ∧
  ∃ u, users !! name = Some u ∧ password = JStr (user_password u)
       ∧ role = user_role u.

(** The filters of [GET /products] as the specification words them:
    a case-insensitive substring match on the name and on the category, and
    the two stock conditions. *)
Definition ci_substring (query text : string) : Prop :=
  ∃ pre post, lower text = pre +:+ lower query +:+ post.

(** The fields of a product of the data model: two strings and two
    integers. *)
Definition name_of (p : record) : string :=
  match p !! "name" with Some (JStr s) => s | _ => "" end.
Definition category_of (p : record) : string :=
  match p !! "category" with Some (JStr s) => s | _ => "" end.
Definition stock_level_of (p : record) : Z :=
  match p !! "stock_level" with Some (JInt z) => z | _ => 0 end.
Definition reorder_point_of (p : record) : Z :=
  match p !! "reorder_point" with Some (JInt z) => z | _ => 0 end.

(** A product of the data model. *)
Definition well_typed (p : record) : Prop :=
  ∃ name category stock reorder,
    p !! "name" = Some (JStr name) ∧ p !! "category" = Some (JStr category)
    ∧ p !! "stock_level" = Some (JInt stock)
    ∧ p !! "reorder_point" = Some (JInt reorder).

(** The part of it the stock filters rely on. *)
Definition stock_typed (p : record) : Prop :=
  ∃ stock reorder,
    p !! "stock_level" = Some (JInt stock)
    ∧ p !! "reorder_point" = Some (JInt reorder).

(** One field with the type of the data model. *)
Definition has_str (field : string) (p : record) : Prop :=
  ∃ s, p !! field = Some (JStr s).
Definition has_int (field : string) (p : record) : Prop :=
  ∃ z, p !! field = Some (JInt z).

(** A record that [jsonify] accepts: every integer in it is written in at
    most 4300 digits. *)
Definition serialisable_record (p : record) : Prop :=
  serialisable (JObj p) = true.

Definition low_stock (p : record) : Prop :=
  stock_level_of p < reorder_point_of p.
Definition out_of_stock (p : record) : Prop := stock_level_of p ≤ 0.

(** A filter that is not supplied constrains nothing; a [stock_status]
    other than the two documented values constrains nothing either. *)
Definition name_filter (args : gmap string string) (p : record) : Prop :=
  match args !! "name" with
  | Some q => ci_substring q (name_of p)
  | None => True
  end.

Definition category_filter (args : gmap string string) (p : record) : Prop :=
  match args !! "category" with
  | Some q => ci_substring q (category_of p)
  | None => True
  end.

Definition stock_filter (args : gmap string string) (p : record) : Prop :=
  match args !! "stock_status" with
  | Some q =>
      (lower q = "low" → low_stock p)
      ∧ (lower q = "out of stock" → out_of_stock p)
  | None => True
  end.

Definition satisfies (args : gmap string string) (p : record) : Prop :=
  name_filter args p ∧ category_filter args p ∧ stock_filter args p.

(** The keys and values that the leading pairs of a sequence stand for, a
    later pair overriding an earlier one with the same key. *)
Fixpoint pairs_map (l : list json) : record :=
  match l with
  | [] => ∅
  | x :: l' =>
      match update_pair x with
      | Ok (k, v) => pairs_map l' ∪ {[k := v]}
      | _ => ∅
      end
  end.

(** The partial product a [PUT /products/{id}] body supplies: a JSON
    object, or a sequence of pairs. *)
Definition supplied (auth_data : record) : record :=
  match auth_data !! "product" with
  | Some (JObj m) => m
  | Some (JList l) => pairs_map l
  | _ => ∅
  end.

(** What the validation of [change] rejects: an absent change (read as 0),
    the integer 0, [false] (which equals 0), and every value that is
    neither an integer nor a boolean. *)
Definition rejected_change (change : option json) : Prop :=
  match change with
  | None => True
  | Some (JInt z) => z = 0
  | Some (JBool b) => b = false
  | Some _ => True
  end.

(** What one served request can do to the store, together with the product
    id and the supplier id it hands out, if any: nothing, write a non-empty
    record over a stored product, delete a product, or store a new product
    or supplier under the current counter value. *)
Inductive transition (st : store) : option Z → option Z → store → Prop :=
  | tr_same : transition st None None st
  | tr_product_written k p :
      k ∈ idict_keys (products st) →
      p ≠ ∅ →
      transition st None None (set_products st (idict_set k p (products st)))
  | tr_product_deleted k :
      transition st None None (set_products st (idict_del k (products st)))
  | tr_product_created p :
      record_id p = Some (JInt (product_id_counter st)) →
      transition st (Some (product_id_counter st)) None
        {| products := idict_set (product_id_counter st) p (products st);
           product_id_counter := product_id_counter st + 1;
           suppliers := suppliers st;
           supplier_id_counter := supplier_id_counter st |}
  | tr_supplier_created s :
      record_id s = Some (JInt (supplier_id_counter st)) →
      transition st None (Some (supplier_id_counter st))
        {| products := products st;
           product_id_counter := product_id_counter st;
           suppliers := idict_set (supplier_id_counter st) s (suppliers st);
           supplier_id_counter := supplier_id_counter st + 1 |}.

(** The keys of each collection are pairwise distinct and lie below its
    counter. *)
Record ids_ok (st : store) : Prop := IdsOk {
  product_keys_nodup : NoDup (idict_keys (products st));
  supplier_keys_nodup : NoDup (idict_keys (suppliers st));
  product_keys_below :
    Forall (λ k, k < product_id_counter st) (idict_keys (products st));
  supplier_keys_below :
    Forall (λ k, k < supplier_id_counter st) (idict_keys (suppliers st))
}.

(** Suppliers are never updated, so each supplier record keeps the id it
    was created with: its key. *)
Definition suppliers_labelled (st : store) : Prop :=
  Forall (λ e, record_id e.2 = Some (JInt e.1)) (suppliers st).

Definition supplier_ids (st : store) : list (option json) :=
  record_id <$> idict_values (suppliers st).

Definition is_str (v : json) : Prop := ∃ s, v = JStr s.
Definition is_int (v : json) : Prop := ∃ z, v = JInt z.

(** The four fields of a (partial) product object have the types of the
    data model wherever they are present. *)
Definition fields_typed (m : record) : Prop :=
  (∀ v, m !! "name" = Some v → is_str v)
  ∧ (∀ v, m !! "category" = Some v → is_str v)
  ∧ (∀ v, m !! "stock_level" = Some v → is_int v)
  ∧ (∀ v, m !! "reorder_point" = Some v → is_int v).

Definition typed_request (req : request) : Prop :=
  match req with
  | PostProducts a | PutProduct _ a => fields_typed (supplied a)
  | _ => True
  end.

(** ** Stores and requests used in the examples *)

(** A store with products that are low on stock or out of stock. *)
Definition low_stock_example : store :=
  set_products initial_store
    [ (1, mk_product 1 "Fiber Optic Cable" "Cables" 90 100);
      (2, mk_product 2 "Router X-500" "Networking" 0 20);
      (3, mk_product 3 "Modem Pro-100" "Networking" 75 15);
      (4, mk_product 4 "Satellite Dish" "Antennas" (-2) (-5)) ].


(** A product whose stock level is a string. *)
Definition untyped_stock_request : request :=
  PostProducts
    (<["product" :=
         JObj (obj [ ("name", JStr "Patch Panel");
                     ("category", JStr "Networking");
                     ("stock_level", JStr "12"); ("reorder_point", JInt 4) ])]>
       admin_auth).

(** An update of the stock level alone. *)
Definition stock_only_update : record :=
  <["product" := JObj (obj [("stock_level", JInt 7)])]> manager_auth.

Definition new_product_payload : json :=
  JObj (obj [ ("name", JStr "Patch Panel"); ("category", JStr "Networking");
              ("stock_level", JInt 12); ("reorder_point", JInt 4) ]).

(** Delete the newest product, then create two products (a Staff create in
    between is refused) and a supplier. *)
Definition delete_then_create : list request :=
  [ DeleteProduct 4 admin_auth;
    PostProducts (<["product" := new_product_payload]> manager_auth);
    PostProducts (<["product" := new_product_payload]> staff_auth);
    PostProducts (<["product" := new_product_payload]> admin_auth);
    PostSuppliers
      (<["supplier" := JObj (obj [("name", JStr "Cable Co.")])]> admin_auth) ].

(** A stock adjustment whose change is written in 4300 digits, the most
    the JSON parser reads, and that takes the stock level of product 2,
    which is 50, to [int_limit], that is [10 ^ 4300]. *)
Definition overflow_stock : request :=
  PutStock 2 (<["change" := JInt (int_limit - 50)]> staff_auth).

(** An update that supplies an ["id"]. *)
Definition relabel_product : request :=
  PutProduct 2 (<["product" := JObj (obj [("id", JInt 1)])]> manager_auth).

(** * Properties *)

(** ** The credential store *)

Lemma users_lookup name u :
  users !! name = Some u →
  (name, u) ∈ [ ("admin", User "adminpassword" "Admin");
                ("manager", User "managerpassword" "Manager");
                ("staff", User "staffpassword" "Staff") ].
Proof. intros H. by apply elem_of_list_to_map_2 in H. Qed.

Lemma users_role name u :
  users !! name = Some u →
  user_role u = "Admin" ∨ user_role u = "Manager" ∨ user_role u = "Staff".
Proof.
  intros H%users_lookup.
  repeat (apply elem_of_cons in H as [H|H]; [inversion H; subst; simpl; tauto|]).
  by apply elem_of_nil in H.
Qed.

Lemma eq_str_true v s : eq_str v s = true ↔ v = JStr s.
Proof.
  destruct v; simpl; try (split; [discriminate|intros [=]]).
  rewrite String.eqb_eq. split; [by intros ->|by intros [= ->]].
Qed.

Lemma eq_str_refl s : eq_str (JStr s) s = true.
Proof. by apply eq_str_true. Qed.

Lemma get_user_role_match username password name role :
  credentials_match username password name role →
  get_user_role username password = Ok (JStr role).
Proof.
  intros (-> & u & Hu & -> & ->). unfold get_user_role. cbn [hashable].
  by rewrite Hu, eq_str_refl.
Qed.

Lemma get_user_role_no_match username password :
  hashable username = true →
  (¬ ∃ name role, credentials_match username password name role) →
  get_user_role username password = Ok JNull.
Proof.
  intros Hh Hno. unfold get_user_role. rewrite Hh.
  destruct username as [| | |name| |]; try done.
  destruct (users !! name) as [u|] eqn:Hu; [|done].
  destruct (eq_str password (user_password u)) eqn:He; [|done].
  apply eq_str_true in He. destruct Hno.
  exists name, (user_role u). split; [done|]. by exists u.
Qed.

Lemma get_user_role_unhashable username password :
  hashable username = false → get_user_role username password = Raise TypeError.
Proof. intros H. unfold get_user_role. by rewrite H. Qed.

(** The role helper answers a stored role or [None], never anything else. *)
Lemma get_user_role_cases username password role :
  get_user_role username password = Ok role →
  role = JNull ∨ role = JStr "Admin" ∨ role = JStr "Manager"
  ∨ role = JStr "Staff".
Proof.
  unfold get_user_role. destruct (hashable username); [|done].
  destruct username as [| | |name| |]; try (intros [= <-]; tauto).
  destruct (users !! name) as [u|] eqn:Hu; [|intros [= <-]; tauto].
  destruct (eq_str password (user_password u)); [|intros [= <-]; tauto].
  intros [= <-]. destruct (users_role _ _ Hu) as [->| [->| ->]]; tauto.
Qed.

(** ** C1: login *)

(** C1 (amended). [POST /login] answers 200 with the username and the
    stored role exactly when the credential store holds the username with
    that very password; every other pair, including an absent username or
    password (read as [None]), is answered 401 with an error payload,
    provided the username is a value the store lookup accepts as a key:
    anything but a list or an object. *)
Theorem login_credentials (auth_data : record) :
  hashable (dict_get auth_data "username") = true →
  (∀ name role,
      credentials_match (dict_get auth_data "username")
        (dict_get auth_data "password") name role →
      login auth_data =
        Ok (Response 200
              (JObj (obj [ ("message", JStr "Login successful");
                           ("username", JStr name); ("role", JStr role) ]))))
  ∧ ((¬ ∃ name role,
          credentials_match (dict_get auth_data "username")
            (dict_get auth_data "password") name role) →
      login auth_data =
        Ok (Response 401 (JObj (obj [("error", JStr "Invalid credentials")])))).
Proof.
  intros Hh. split.
  - intros name role Hm. unfold login.
    rewrite (get_user_role_match _ _ _ _ Hm). simpl.
    destruct Hm as (Hn & u & Hu & _ & ->). rewrite Hn.
    by destruct (users_role _ _ Hu) as [->| [->| ->]].
  - intros Hno. unfold login.
    by rewrite (get_user_role_no_match _ _ Hh Hno).
Qed.

Lemma login_credentials_witness :
  login staff_auth =
    Ok (Response 200
          (JObj (obj [ ("message", JStr "Login successful");
                       ("username", JStr "staff"); ("role", JStr "Staff") ]))).
Proof.
  apply (proj1 (login_credentials staff_auth eq_refl) "staff" "Staff").
  split; [reflexivity|].
  exists (User "staffpassword" "Staff"). repeat split; reflexivity.
Defined.

(** Absent credentials, a wrong password and a password for another user
    are all answered 401. *)
Example login_rejected :
  login ∅ = Ok (error_response 401 "Invalid credentials")
  ∧ login (obj [("username", JStr "admin")])
    = Ok (error_response 401 "Invalid credentials")
  ∧ login (credentials "admin" "Adminpassword")
    = Ok (error_response 401 "Invalid credentials")
  ∧ login (credentials "admin" "staffpassword")
    = Ok (error_response 401 "Invalid credentials").
Proof. vm_compute. done. Qed.

(** C1 as stated fails: a username that is a JSON list (or object) matches
    no stored pair, yet it is not answered 401; the dictionary lookup
    raises on the unhashable key. *)
Lemma login_unhashable_username :
  login (obj [("username", JList [JStr "admin"]);
              ("password", JStr "adminpassword")])
  = Raise TypeError.
Proof. reflexivity. Qed.

(** ** C2: role enforcement on product creation *)

(** C2. A request to [POST /products] whose credentials resolve to the
    Staff role or to no role is answered 403 and changes nothing, whatever
    the rest of the body holds: the role is checked before the product
    payload is looked at. *)
Theorem add_product_forbidden (auth_data : record) (st : store) (role : json) :
  request_role auth_data = Ok role →
  role = JStr "Staff" ∨ role = JNull →
  add_product auth_data st =
    Ok (Response 403 (JObj (obj [("error", JStr "Unauthorized access")])), st).
Proof.
  intros Hr Hrole. unfold add_product. rewrite Hr. simpl.
  by destruct Hrole as [-> | ->].
Qed.

Lemma add_product_forbidden_witness :
  add_product (<["product" := JBool true]> staff_auth) initial_store =
    Ok (Response 403 (JObj (obj [("error", JStr "Unauthorized access")])),
        initial_store).
Proof.
  apply (add_product_forbidden _ initial_store (JStr "Staff"));
    [reflexivity | left; reflexivity].
Defined.

(** With Admin credentials the same malformed payload reaches the
    validation, which raises on [k in True]. *)
Example add_product_admin_bad_payload :
  add_product (<["product" := JBool true]> admin_auth) initial_store
  = Raise TypeError.
Proof. reflexivity. Qed.

(** ** Substring search *)

Lemma starts_with_spec p s : starts_with p s = true ↔ ∃ t, s = p +:+ t.
Proof.
  revert s. induction p as [|a p IH]; intros s; simpl.
  - split; [by exists s | done].
  - destruct s as [|b s].
    + split; [done | by intros [t [=]]].
    + rewrite andb_true_iff, Ascii.eqb_eq, IH. split.
      * intros [-> [t ->]]. by exists t.
      * intros [t [= -> ->]]. split; [done | by exists t].
Qed.

Lemma str_in_spec needle hay :
  str_in needle hay = true ↔ ∃ pre post, hay = pre +:+ needle +:+ post.
Proof.
  induction hay as [|c hay IH]; simpl; rewrite orb_true_iff, starts_with_spec.
  - split.
    + intros [[t Ht] | [=]]. by exists "", t.
    + intros (pre & post & H). left. destruct pre; [by exists post | done].
  - rewrite IH. split.
    + intros [[t Ht] | (pre & post & ->)]; [by exists "", t|].
      by exists (String c pre), post.
    + intros ([|c' pre] & post & H); [left; by exists post|].
      right. injection H as -> ->. by exists pre, post.
Qed.

Lemma str_in_empty hay : str_in "" hay = true.
Proof. by destruct hay. Qed.

(** ** C3, C4: the product query *)

Global Instance ci_substring_dec query text : Decision (ci_substring query text).
Proof.
  refine (cast_if (decide (str_in (lower query) (lower text) = true)));
    unfold ci_substring; by rewrite <- str_in_spec.
Defined.

Global Instance name_filter_dec args p : Decision (name_filter args p).
Proof. unfold name_filter. destruct (args !! "name"); apply _. Defined.
Global Instance category_filter_dec args p : Decision (category_filter args p).
Proof. unfold category_filter. destruct (args !! "category"); apply _. Defined.
Global Instance low_stock_dec p : Decision (low_stock p).
Proof. unfold low_stock. apply _. Defined.
Global Instance out_of_stock_dec p : Decision (out_of_stock p).
Proof. unfold out_of_stock. apply _. Defined.
Global Instance stock_filter_dec args p : Decision (stock_filter args p).
Proof. unfold stock_filter. destruct (args !! "stock_status"); apply _. Defined.
Global Instance satisfies_dec args p : Decision (satisfies args p).
Proof. unfold satisfies. apply _. Defined.

Lemma bool_decide_intro (b : bool) (P : Prop) `{Decision P} :
  (b = true ↔ P) → b = bool_decide P.
Proof. intros Hb. destruct b; case_bool_decide; intuition congruence. Qed.

Lemma filter_all {A} (P : A → Prop) `{∀ x, Decision (P x)} (l : list A) :
  (∀ x, P x) → filter P l = l.
Proof.
  intros HP. induction l as [|x l IH]; [done|].
  by rewrite filter_cons_True, IH.
Qed.

Lemma Forall_filter_keep {A} (Q P : A → Prop) `{∀ x, Decision (P x)}
    (l : list A) :
  Forall Q l → Forall Q (filter P l).
Proof.
  rewrite !Forall_forall. intros HQ x [_ Hx]%list_elem_of_filter. by apply HQ.
Qed.

(** A comprehension whose condition never raises is a plain filter. *)
Lemma filter_res_total {A} (f : A → res bool) (P : A → Prop)
    `{∀ x, Decision (P x)} (l : list A) :
  Forall (λ x, f x = Ok (bool_decide (P x))) l →
  filter_res f l = Ok (filter P l).
Proof.
  induction 1 as [|x l Hx _ IH]; [done|].
  simpl. rewrite Hx, IH. simpl. rewrite filter_cons.
  by case_bool_decide; case_decide.
Qed.

(** What a query needs of the collection [l] it runs on: each filter that
    is supplied (with a non-empty value) finds the type of the data model
    in the field it reads, in every product that reaches it.  A filter
    that is not supplied reads nothing, and a field that no supplied
    filter reads may hold anything. *)
Definition inspected_typed (args : gmap string string) (l : list record)
  : Prop :=
  (nonempty (arg_lower args "name") = true → Forall (has_str "name") l)
  ∧ (nonempty (arg_lower args "category") = true →
     Forall (has_str "category") (filter (name_filter args) l))
  ∧ (arg_lower args "stock_status" = "low" →
     Forall stock_typed
       (filter (category_filter args) (filter (name_filter args) l)))
  ∧ (arg_lower args "stock_status" = "out of stock" →
     Forall (has_int "stock_level")
       (filter (category_filter args) (filter (name_filter args) l))).

(** The first two comprehensions of [get_products]: the name and the
    category filter. *)
Definition other_filters (args : gmap string string) (st : store)
  : res (list record) :=
  let name_query := arg_lower args "name" in
  let category_query := arg_lower args "category" in
  let filtered_products := idict_values (products st) in
  let! filtered_products :=
    if nonempty name_query
    then filter_res (field_contains "name" name_query) filtered_products
    else Ok filtered_products in
  if nonempty category_query
  then filter_res (field_contains "category" category_query) filtered_products
  else Ok filtered_products.

Lemma field_contains_name q p :
  has_str "name" p →
  field_contains "name" (lower q) p = Ok (bool_decide (ci_substring q (name_of p))).
Proof.
  intros [n Hn]. unfold field_contains, dict_item, name_of.
  rewrite Hn. simpl. f_equal. apply bool_decide_intro, str_in_spec.
Qed.

Lemma field_contains_category q p :
  has_str "category" p →
  field_contains "category" (lower q) p
  = Ok (bool_decide (ci_substring q (category_of p))).
Proof.
  intros [c Hc]. unfold field_contains, dict_item, category_of.
  rewrite Hc. simpl. f_equal. apply bool_decide_intro, str_in_spec.
Qed.

Lemma well_typed_stock p : well_typed p → stock_typed p.
Proof. intros (n & c & s & r & _ & _ & Hs & Hr). by exists s, r. Qed.

Lemma well_typed_name p : well_typed p → has_str "name" p.
Proof. intros (n & c & s & r & Hn & _). by exists n. Qed.

Lemma well_typed_category p : well_typed p → has_str "category" p.
Proof. intros (n & c & s & r & _ & Hc & _). by exists c. Qed.

Lemma stock_typed_level p : stock_typed p → has_int "stock_level" p.
Proof. intros (s & r & Hs & _). by exists s. Qed.

Lemma is_low_typed p :
  stock_typed p → is_low p = Ok (bool_decide (low_stock p)).
Proof.
  intros (s & r & Hs & Hr).
  assert (is_low p = Ok (s <? r)) as ->
    by (unfold is_low, dict_item; by rewrite Hs, Hr).
  f_equal. apply bool_decide_intro.
  unfold low_stock, stock_level_of, reorder_point_of. rewrite Hs, Hr.
  apply Z.ltb_lt.
Qed.

Lemma is_out_of_stock_typed p :
  has_int "stock_level" p →
  is_out_of_stock p = Ok (bool_decide (out_of_stock p)).
Proof.
  intros (s & Hs).
  assert (is_out_of_stock p = Ok (s <=? 0)) as ->
    by (unfold is_out_of_stock, dict_item; by rewrite Hs).
  f_equal. apply bool_decide_intro.
  unfold out_of_stock, stock_level_of. rewrite Hs. apply Z.leb_le.
Qed.

Lemma nonempty_false s : nonempty s = false → s = "".
Proof. unfold nonempty. rewrite negb_false_iff. apply String.eqb_eq. Qed.

Lemma ci_substring_empty q text : lower q = "" → ci_substring q text.
Proof. intros Hq. exists "", (lower text). by rewrite Hq. Qed.

Lemma name_stage args l :
  (nonempty (arg_lower args "name") = true → Forall (has_str "name") l) →
  (if nonempty (arg_lower args "name")
   then filter_res (field_contains "name" (arg_lower args "name")) l
   else Ok l)
  = Ok (filter (name_filter args) l).
Proof.
  unfold arg_lower.
  destruct (args !! "name") as [q|] eqn:E; simpl.
  - rewrite (list_filter_iff (name_filter args) (λ p, ci_substring q (name_of p)))
      by (intros p; unfold name_filter; by rewrite E).
    destruct (nonempty (lower q)) eqn:Hq; intros Hl.
    + apply filter_res_total. eapply Forall_impl; [by apply Hl|].
      intros p Hp. by apply field_contains_name.
    + apply nonempty_false in Hq. rewrite filter_all; [done|].
      intros p. by apply ci_substring_empty.
  - intros _. rewrite filter_all; [done|].
    intros p. unfold name_filter. by rewrite E.
Qed.

Lemma category_stage args l :
  (nonempty (arg_lower args "category") = true →
   Forall (has_str "category") l) →
  (if nonempty (arg_lower args "category")
   then filter_res (field_contains "category" (arg_lower args "category")) l
   else Ok l)
  = Ok (filter (category_filter args) l).
Proof.
  unfold arg_lower.
  destruct (args !! "category") as [q|] eqn:E; simpl.
  - rewrite (list_filter_iff (category_filter args) (λ p, ci_substring q (category_of p)))
      by (intros p; unfold category_filter; by rewrite E).
    destruct (nonempty (lower q)) eqn:Hq; intros Hl.
    + apply filter_res_total. eapply Forall_impl; [by apply Hl|].
      intros p Hp. by apply field_contains_category.
    + apply nonempty_false in Hq. rewrite filter_all; [done|].
      intros p. by apply ci_substring_empty.
  - intros _. rewrite filter_all; [done|].
    intros p. unfold category_filter. by rewrite E.
Qed.

Lemma stock_stage args l :
  (arg_lower args "stock_status" = "low" → Forall stock_typed l) →
  (arg_lower args "stock_status" = "out of stock" →
   Forall (has_int "stock_level") l) →
  (if nonempty (arg_lower args "stock_status") then
     if String.eqb (arg_lower args "stock_status") "low"
     then filter_res is_low l
     else if String.eqb (arg_lower args "stock_status") "out of stock"
     then filter_res is_out_of_stock l
     else Ok l
   else Ok l)
  = Ok (filter (stock_filter args) l).
Proof.
  unfold arg_lower.
  destruct (args !! "stock_status") as [q|] eqn:E; simpl.
  2: { intros _ _. rewrite filter_all; [done|].
       intros p. unfold stock_filter. by rewrite E. }
  intros Hl Ho.
  destruct (String.eqb_spec (lower q) "low") as [Hlow|Hlow].
  { specialize (Hl Hlow). rewrite Hlow. simpl.
    rewrite (filter_res_total _ low_stock).
    - f_equal. apply list_filter_iff. intros p.
      unfold stock_filter. rewrite E, Hlow. intuition discriminate.
    - eapply Forall_impl; [exact Hl|]. intros p Hp. by apply is_low_typed. }
  destruct (String.eqb_spec (lower q) "out of stock") as [Hout|Hout].
  { specialize (Ho Hout). rewrite Hout. simpl.
    rewrite (filter_res_total _ out_of_stock).
    - f_equal. apply list_filter_iff. intros p.
      unfold stock_filter. rewrite E, Hout. intuition discriminate.
    - eapply Forall_impl; [exact Ho|].
      intros p Hp. by apply is_out_of_stock_typed. }
  rewrite filter_all.
  - by destruct (nonempty (lower q)).
  - intros p. unfold stock_filter. rewrite E. tauto.
Qed.

(** ** Serialisation *)

Lemma int_limit_eq : int_limit = 10 ^ 4300.
Proof. vm_compute. reflexivity. Qed.

Lemma serialisable_obj m :
  serialisable (JObj m) = true ↔ map_Forall (λ _ x, serialisable x = true) m.
Proof.
  change (serialisable (JObj m))
    with (map_fold (λ (_ : string) x b, serialisable x && b) true m).
  induction m as [|k x m Hk Hfold IH] using map_first_key_ind.
  - rewrite map_fold_empty. split; [intros _; apply map_Forall_empty | done].
  - rewrite map_fold_insert_first_key by done.
    by rewrite andb_true_iff, IH, map_Forall_insert.
Qed.

Lemma serialisable_records l :
  serialisable (JList (JObj <$> l)) = true ↔ Forall serialisable_record l.
Proof.
  change (serialisable (JList (JObj <$> l)))
    with (forallb serialisable (JObj <$> l)).
  rewrite forallb_forall, Forall_forall. split.
  - intros H p Hp. apply H, list_elem_of_In, list_elem_of_fmap. by exists p.
  - intros H v (p & -> & Hp)%list_elem_of_In%list_elem_of_fmap. by apply H.
Qed.

Lemma jsonify_Ok v b : jsonify v = Ok b ↔ b = v ∧ serialisable v = true.
Proof.
  unfold jsonify. destruct (serialisable v); [|by intuition].
  split; [by intros [= <-] | by intros [-> _]].
Qed.

Lemma jsonify_records l :
  Forall serialisable_record l →
  jsonify (JList (JObj <$> l)) = Ok (JList (JObj <$> l)).
Proof. intros Hl. apply jsonify_Ok. by rewrite serialisable_records. Qed.

Lemma jsonify_Raise v e : jsonify v = Raise e → e = ValueError.
Proof. unfold jsonify. destruct (serialisable v); [done | by intros [= <-]]. Qed.

Lemma respond_serialisable code v st' :
  serialisable v = true → respond code v st' = Ok (Response code v, st').
Proof. intros H. unfold respond, jsonify. by rewrite H. Qed.


Lemma respond_Ok code v st' r st1 :
  respond code v st' = Ok (r, st1) →
  r = Response code v ∧ st1 = st' ∧ serialisable v = true.
Proof.
  unfold respond, jsonify. destruct (serialisable v); [|done].
  by intros [= <- <-].
Qed.

Lemma respond_cases code v st' :
  respond code v st'
  = if serialisable v then Ok (Response code v, st') else Wrote ValueError st'.
Proof. unfold respond, jsonify. by destruct (serialisable v). Qed.

(** ** C3, C4: the answer of the product query *)

(** The three comprehensions on a collection whose inspected fields are
    typed: a plain filter, followed by the serialisation. *)
Lemma get_products_filtered args st :
  inspected_typed args (idict_values (products st)) →
  get_products args st =
    let! b :=
      jsonify (JList (JObj <$>
                 filter (satisfies args) (idict_values (products st)))) in
    Ok (Response 200 b).
Proof.
  intros (Hn & Hc & Hlow & Hout). unfold get_products.
  rewrite (name_stage _ _ Hn). cbn [res_bind].
  rewrite (category_stage _ _ Hc). cbn [res_bind].
  rewrite (stock_stage _ _ Hlow Hout). cbn [res_bind].
  do 4 f_equal. rewrite !list_filter_filter.
  apply list_filter_iff. intros p. unfold satisfies. tauto.
Qed.

Lemma well_typed_inspected args l :
  Forall well_typed l → inspected_typed args l.
Proof.
  intros Hl. split_and!; intros _.
  - eapply Forall_impl; [exact Hl | apply well_typed_name].
  - apply Forall_filter_keep.
    eapply Forall_impl; [exact Hl | apply well_typed_category].
  - do 2 apply Forall_filter_keep.
    eapply Forall_impl; [exact Hl | apply well_typed_stock].
  - do 2 apply Forall_filter_keep.
    eapply Forall_impl; [exact Hl|].
    intros p Hp. by apply stock_typed_level, well_typed_stock.
Qed.

Lemma get_products_typed args st :
  Forall well_typed (idict_values (products st)) →
  get_products args st =
    let! b :=
      jsonify (JList (JObj <$>
                 filter (satisfies args) (idict_values (products st)))) in
    Ok (Response 200 b).
Proof. intros Hl. by apply get_products_filtered, well_typed_inspected. Qed.

Lemma initial_store_well_typed :
  Forall well_typed (idict_values (products initial_store)).
Proof. repeat constructor; by eexists _, _, _, _. Qed.

Lemma initial_store_serialisable :
  Forall serialisable_record (idict_values (products initial_store)).
Proof. repeat constructor; vm_compute; reflexivity. Qed.

Lemma no_filter_inspected args l :
  args !! "name" = None → args !! "category" = None →
  args !! "stock_status" = None → inspected_typed args l.
Proof.
  intros Hn Hc Hs. unfold inspected_typed, arg_lower.
  rewrite Hn, Hc, Hs. split_and!; discriminate.
Qed.









Lemma filter_res_Forall {A} (P : A → Prop) (f : A → res bool) l r :
  filter_res f l = Ok r → Forall P l → Forall P r.
Proof.
  revert r. induction l as [|x l IH]; intros r; simpl.
  - by intros [= <-].
  - destruct (f x) as [b| | |]; [|done..]. cbn [res_bind].
    destruct (filter_res f l) as [r'| | |]; [|done..]. cbn [res_bind].
    intros [= <-] [Hx Hl]%Forall_cons.
    destruct b; [constructor|]; auto.
Qed.

Lemma other_filters_Forall (P : record → Prop) args st l :
  other_filters args st = Ok l →
  Forall P (idict_values (products st)) → Forall P l.
Proof.
  unfold other_filters. cbv zeta. intros Ho Hst.
  destruct (if nonempty (arg_lower args "name") then _ else _)
    as [l1| | |] eqn:H1; [|done..].
  cbn [res_bind] in Ho.
  assert (Forall P l1) as Hl1.
  { destruct (nonempty (arg_lower args "name"));
      [by eapply filter_res_Forall | by injection H1 as <-]. }
  destruct (nonempty (arg_lower args "category"));
    [by eapply filter_res_Forall | by injection Ho as <-].
Qed.

Global Instance JObj_inj : Inj (=) (=) JObj.
Proof. by intros m1 m2 [= ->]. Qed.



Example get_products_low :
  get_products {[ "stock_status" := "Low"; "category" := "net" ]}
    low_stock_example
  = Ok (Response 200
          (JList [JObj (mk_product 2 "Router X-500" "Networking" 0 20)])).
Proof. vm_compute. reflexivity. Qed.

Example get_products_out_of_stock :
  get_products {[ "stock_status" := "out of stock" ]} low_stock_example
  = Ok (Response 200
          (JList [JObj (mk_product 2 "Router X-500" "Networking" 0 20);
                  JObj (mk_product 4 "Satellite Dish" "Antennas" (-2) (-5))])).
Proof. vm_compute. reflexivity. Qed.

(** A stock status outside the two documented values filters nothing. *)
Example get_products_unknown_status :
  get_products {[ "stock_status" := "plenty" ]} initial_store
  = get_products ∅ initial_store.
Proof. vm_compute. reflexivity. Qed.



(** ** Integer-keyed dictionaries *)

Section int_dict_facts.
Context {V : Type}.
Implicit Types (d : list (Z * V)) (k : Z) (v : V).

Lemma idict_keys_cons k v d : idict_keys ((k, v) :: d) = k :: idict_keys d.
Proof. done. Qed.

Lemma idict_get_None d k : idict_get k d = None ↔ k ∉ idict_keys d.
Proof.
  induction d as [|[k' v'] d IH]; simpl.
  - split; [intros _; apply not_elem_of_nil | done].
  - rewrite idict_keys_cons, not_elem_of_cons. case_decide.
    + split; [done | by intros [? _]].
    + rewrite IH. tauto.
Qed.

Lemma idict_get_is_Some d k : is_Some (idict_get k d) ↔ k ∈ idict_keys d.
Proof.
  rewrite <- not_eq_None_Some, idict_get_None.
  destruct (decide (k ∈ idict_keys d)); tauto.
Qed.

Lemma idict_get_set_eq d k v : idict_get k (idict_set k v d) = Some v.
Proof.
  induction d as [|[k' v'] d IH]; simpl; repeat (case_decide; simpl); done.
Qed.

Lemma idict_get_set_ne d k k' v :
  k ≠ k' → idict_get k' (idict_set k v d) = idict_get k' d.
Proof.
  intros Hne. induction d as [|[k'' v''] d IH]; simpl;
    repeat (case_decide; simpl); congruence.
Qed.

(** Writing back what is stored leaves the dictionary as it is. *)
Lemma idict_set_id d k v : idict_get k d = Some v → idict_set k v d = d.
Proof.
  induction d as [|[k' v'] d IH]; simpl; [done|].
  case_decide; [by intros [= ->]; subst | intros Hg; by rewrite IH].
Qed.

Lemma idict_keys_set_present d k v :
  k ∈ idict_keys d → idict_keys (idict_set k v d) = idict_keys d.
Proof.
  induction d as [|[k' v'] d IH]; simpl.
  - by intros ?%elem_of_nil.
  - rewrite idict_keys_cons. case_decide; [by subst|].
    intros [?|?]%elem_of_cons; [done|].
    by rewrite idict_keys_cons, IH.
Qed.

Lemma idict_keys_set_absent d k v :
  k ∉ idict_keys d → idict_keys (idict_set k v d) = idict_keys d ++ [k].
Proof.
  induction d as [|[k' v'] d IH]; simpl; [done|].
  rewrite idict_keys_cons, not_elem_of_cons. intros [Hne Hk].
  case_decide; [done|]. by rewrite idict_keys_cons, IH.
Qed.

Lemma idict_keys_del_sublist d k :
  sublist (idict_keys (idict_del k d)) (idict_keys d).
Proof.
  induction d as [|[k' v'] d IH]; simpl; [done|].
  rewrite idict_keys_cons.
  case_decide; [by apply sublist_cons|].
  rewrite idict_keys_cons. by apply sublist_skip.
Qed.

Lemma idict_get_del_ne d k k' :
  k ≠ k' → idict_get k' (idict_del k d) = idict_get k' d.
Proof.
  intros Hne. induction d as [|[k'' v''] d IH]; simpl; [done|].
  repeat (case_decide; simpl); congruence.
Qed.

Lemma idict_get_elem_of d k v : idict_get k d = Some v → v ∈ idict_values d.
Proof.
  induction d as [|[k' v'] d IH]; simpl; [done|].
  case_decide; [intros [= ->]; left | intros ?; right; by apply IH].
Qed.
End int_dict_facts.

Lemma find_product_Some product_id st product :
  find_product product_id st = Some product ↔
  idict_get product_id (products st) = Some product ∧ product ≠ ∅.
Proof.
  unfold find_product. destruct (idict_get _ _) as [p|]; [|by intuition].
  case_bool_decide; [|by intuition congruence].
  split; [done | intros [[= <-] ?]; done].
Qed.

(** ** C6, C10: product update *)

Lemma update_pairs_supplied product l :
  (update_pairs product l).1 = pairs_map l ∪ product.
Proof.
  revert product. induction l as [|x l IH]; intros product; simpl.
  - by rewrite (left_id_L ∅ (∪)).
  - destruct (update_pair x) as [[k v]| | |]; simpl;
      try by rewrite (left_id_L ∅ (∪)).
    by rewrite IH, <- (assoc_L (∪)), <- insert_union_singleton_l.
Qed.

(** What [product.update] leaves behind, however it ends: the supplied
    pairs merged onto the record. *)
Lemma dict_update_supplied product auth_data :
  (dict_update product (dict_get_default auth_data "product" (JObj ∅))).1
  = supplied auth_data ∪ product.
Proof.
  unfold dict_get_default, supplied.
  destruct (auth_data !! "product") as [[| | |s|l|m]|]; simpl;
    rewrite ?(left_id_L ∅ (∪)); try done.
  apply update_pairs_supplied.
Qed.

(** [PUT /products/{id}] once the role is accepted and the product found:
    the merge is stored, then serialised. *)
Lemma update_product_found product_id auth_data st role old :
  request_role auth_data = Ok (JStr role) →
  role = "Admin" ∨ role = "Manager" →
  find_product product_id st = Some old →
  update_product product_id auth_data st =
    let st' :=
      set_products st
        (idict_set product_id (supplied auth_data ∪ old) (products st)) in
    match
      (dict_update old (dict_get_default auth_data "product" (JObj ∅))).2
    with
    | Ok _ => respond 200 (JObj (supplied auth_data ∪ old)) st'
    | Raise e | Wrote e _ => Wrote e st'
    | NotModelled => NotModelled
    end.
Proof.
  intros Hr Hrole Hf. unfold update_product. rewrite Hr, Hf. cbn [res_bind].
  assert (in_strs (JStr role) ["Admin"; "Manager"] = true) as ->
    by by destruct Hrole as [-> | ->].
  cbn [negb]. cbv zeta. by rewrite dict_update_supplied.
Qed.

(** The three ways in which [PUT /products/{id}] answers. *)
Lemma update_product_Ok product_id auth_data st r st' :
  update_product product_id auth_data st = Ok (r, st') →
  (r = error_response 403 "Unauthorized access" ∧ st' = st)
  ∨ (r = error_response 404 "Product not found" ∧ st' = st)
  ∨ ∃ old,
      find_product product_id st = Some old
      ∧ r = Response 200 (JObj (supplied auth_data ∪ old))
      ∧ st' = set_products st
                (idict_set product_id (supplied auth_data ∪ old) (products st))
      ∧ serialisable_record (supplied auth_data ∪ old).
Proof.
  unfold update_product.
  destruct (request_role auth_data) as [role| | |]; cbn [res_bind]; [|done..].
  destruct (negb (in_strs role ["Admin"; "Manager"]));
    [intros [= <- <-]; by left|].
  destruct (find_product product_id st) as [old|] eqn:Hf;
    [|intros [= <- <-]; right; by left].
  cbv zeta. rewrite dict_update_supplied.
  destruct (dict_update old _).2; [|done..].
  intros (-> & -> & Hser)%respond_Ok. right; right. by exists old.
Qed.

(** When it raises after the role check, the store holds the merge of the
    pairs that were applied. *)
Lemma update_product_Wrote product_id auth_data st e st' :
  update_product product_id auth_data st = Wrote e st' →
  ∃ old,
    find_product product_id st = Some old
    ∧ st' = set_products st
              (idict_set product_id (supplied auth_data ∪ old) (products st)).
Proof.
  unfold update_product.
  destruct (request_role auth_data) as [role| | |] eqn:Hr; cbn [res_bind];
    [|done| |done].
  2: { unfold request_role, get_user_role in Hr.
       destruct (hashable _); [|done].
       destruct (dict_get auth_data "username") as [| | |name| |]; try done.
       destruct (users !! name) as [u|]; [|done].
       by destruct (eq_str _ _). }
  destruct (negb (in_strs role ["Admin"; "Manager"])); [done|].
  destruct (find_product product_id st) as [old|] eqn:Hf; [|done].
  cbv zeta. rewrite dict_update_supplied. intros H. exists old. split; [done|].
  destruct (dict_update old _).2; try by injection H as _ <-.
  - rewrite respond_cases in H. destruct (serialisable _); [done|].
    by injection H as _ <-.
  - done.
Qed.

(** C6. A successful [PUT /products/{id}] merges the supplied partial
    product onto the stored record: every supplied key (["id"] included)
    takes the supplied value, every other field of the record keeps its
    value, and nothing else in the store changes (the records of the other
    products, the order of the collection, the suppliers, the counters).
    And such requests succeed: with the role Admin or Manager, a stored
    product and a product object in the body, the answer is 200 with the
    merged record, which is stored, whenever the merged record can be
    serialised. *)
Theorem update_product_merges (product_id : Z) (auth_data : record)
    (st : store) :
  (∀ r st',
     update_product product_id auth_data st = Ok (r, st') →
     status r = 200 →
     ∃ old new,
       idict_get product_id (products st) = Some old
       ∧ idict_get product_id (products st') = Some new
       ∧ r = Response 200 (JObj new)
       ∧ (∀ key v, supplied auth_data !! key = Some v → new !! key = Some v)
       ∧ (∀ key, supplied auth_data !! key = None → new !! key = old !! key)
       ∧ (∀ other, other ≠ product_id →
            idict_get other (products st') = idict_get other (products st))
       ∧ idict_keys (products st') = idict_keys (products st)
       ∧ product_id_counter st' = product_id_counter st
       ∧ suppliers st' = suppliers st
       ∧ supplier_id_counter st' = supplier_id_counter st)
  ∧ (∀ role old update_data,
       request_role auth_data = Ok (JStr role) →
       role = "Admin" ∨ role = "Manager" →
       find_product product_id st = Some old →
       auth_data !! "product" = Some (JObj update_data) →
       serialisable_record (update_data ∪ old) →
       update_product product_id auth_data st =
         Ok (Response 200 (JObj (update_data ∪ old)),
             set_products st
               (idict_set product_id (update_data ∪ old) (products st)))).
Proof.
  split.
  - intros r st' Hu Hs.
    apply update_product_Ok in Hu
      as [[-> _]|[[-> _]|(old & Hf & -> & -> & _)]]; [done..|].
    apply find_product_Some in Hf as [Hold _].
    exists old, (supplied auth_data ∪ old). simpl.
    split_and!; try done.
    + apply idict_get_set_eq.
    + intros key v Hk. by apply lookup_union_Some_l.
    + intros key Hk. by apply lookup_union_r.
    + intros other Hne. by apply idict_get_set_ne.
    + apply idict_keys_set_present, idict_get_is_Some. by exists old.
  - intros role old update_data Hr Hrole Hf Hp Hser.
    rewrite (update_product_found _ _ _ role old) by done. cbv zeta.
    assert (supplied auth_data = update_data) as ->
      by (unfold supplied; by rewrite Hp).
    unfold dict_get_default. rewrite Hp. simpl.
    by apply respond_serialisable.
Qed.

Lemma update_product_merges_witness :
  update_product 2 stock_only_update initial_store =
    Ok (Response 200 (JObj (mk_product 2 "Router X-500" "Networking" 7 20)),
        set_products initial_store
          (idict_set 2 (mk_product 2 "Router X-500" "Networking" 7 20)
             (products initial_store)))
  ∧ ∃ old new : record,
      idict_get 2 (products initial_store) = Some old
      ∧ new !! "stock_level" = Some (JInt 7)
      ∧ new !! "name" = old !! "name"
      ∧ new !! "category" = old !! "category"
      ∧ new !! "reorder_point" = old !! "reorder_point"
      ∧ new !! "id" = old !! "id".
Proof.
  destruct (update_product_merges 2 stock_only_update initial_store)
    as [Hmerged Hanswered].
  assert (update_product 2 stock_only_update initial_store =
            Ok (Response 200
                  (JObj (mk_product 2 "Router X-500" "Networking" 7 20)),
                set_products initial_store
                  (idict_set 2 (mk_product 2 "Router X-500" "Networking" 7 20)
                     (products initial_store)))) as Hu.
  { refine (eq_trans
              (Hanswered "Manager"
                 (mk_product 2 "Router X-500" "Networking" 50 20)
                 (obj [("stock_level", JInt 7)]) _ _ _ _ _) _).
    - reflexivity.
    - right; reflexivity.
    - reflexivity.
    - reflexivity.
    - vm_compute. reflexivity.
    - vm_compute. reflexivity. }
  split; [exact Hu|].
  destruct (Hmerged _ _ Hu eq_refl)
    as (old & new & Hold & _ & _ & Hnew & Hkeep & _).
  exists old, new. split_and!; [done| |apply Hkeep; vm_compute; reflexivity..].
  apply Hnew. vm_compute. reflexivity.
Defined.

(** The merge excludes no key: a caller can overwrite the ["id"] a record
    reports. *)
Example update_product_overwrites_id :
  ∃ r st', update_product 2 (<["product" := JObj (obj [("id", JInt 1)])]> admin_auth)
             initial_store = Ok (r, st')
           ∧ status r = 200
           ∧ (idict_get 2 (products st') ≫= record_id) = Some (JInt 1).
Proof. eexists _, _. split_and!; vm_compute; reflexivity. Qed.

(** A sequence of pairs is merged like an object. *)
Example update_product_pairs :
  update_product 2
    (<["product" := JList [JList [JStr "name"; JInt 5]]]> admin_auth)
    initial_store
  = Ok (Response 200
          (JObj (obj [ ("id", JInt 2); ("name", JInt 5);
                       ("category", JStr "Networking");
                       ("stock_level", JInt 50); ("reorder_point", JInt 20) ])),
        set_products initial_store
          [ (1, mk_product 1 "Fiber Optic Cable" "Cables" 500 100);
            (2, obj [ ("id", JInt 2); ("name", JInt 5);
                      ("category", JStr "Networking");
                      ("stock_level", JInt 50); ("reorder_point", JInt 20) ]);
            (3, mk_product 3 "Modem Pro-100" "Networking" 75 15);
            (4, mk_product 4 "Satellite Dish" "Antennas" 10 5) ]).
Proof. vm_compute. reflexivity. Qed.




(** ** C7, C8: stock adjustment *)

Lemma in_strs_roles role :
  role = "Admin" ∨ role = "Manager" ∨ role = "Staff" →
  in_strs (JStr role) ["Admin"; "Manager"; "Staff"] = true.
Proof. by intros [-> | [-> | ->]]. Qed.

(** [PUT /products/{id}/stock] once the request is accepted: the new level
    is stored, then the record is serialised. *)
Lemma update_stock_int product_id auth_data st role product s c :
  request_role auth_data = Ok (JStr role) →
  role = "Admin" ∨ role = "Manager" ∨ role = "Staff" →
  find_product product_id st = Some product →
  product !! "stock_level" = Some (JInt s) →
  auth_data !! "change" = Some (JInt c) →
  c ≠ 0 →
  update_stock product_id auth_data st =
    respond 200 (JObj (<["stock_level" := JInt (s + c)]> product))
      (set_products st
         (idict_set product_id (<["stock_level" := JInt (s + c)]> product)
            (products st))).
Proof.
  intros Hr Hrole Hf Hs Hc Hc0.
  unfold update_stock. rewrite Hr, Hf. cbn [res_bind].
  rewrite (in_strs_roles _ Hrole). cbn [negb].
  unfold dict_get_default, dict_item. rewrite Hc, Hs.
  cbn [default from_option id isinstance_int negb orb as_int py_add_int
       res_bind].
  unfold eq_zero. cbn [as_int]. by destruct (Z.eqb_spec c 0).
Qed.

Lemma py_add_int_Ok a c v : py_add_int a c = Ok v → ∃ z, v = JInt z.
Proof.
  unfold py_add_int. destruct (as_int a); [|done]. intros [= <-]. by eexists.
Qed.

(** The four ways in which [PUT /products/{id}/stock] answers. *)
Lemma update_stock_Ok product_id auth_data st r st' :
  update_stock product_id auth_data st = Ok (r, st') →
  (st' = st
   ∧ (r = error_response 403 "Unauthorized access"
      ∨ r = error_response 404 "Product not found"
      ∨ r = error_response 400 "Invalid stock change value"))
  ∨ ∃ old z,
      find_product product_id st = Some old
      ∧ r = Response 200 (JObj (<["stock_level" := JInt z]> old))
      ∧ st' = set_products st
                (idict_set product_id (<["stock_level" := JInt z]> old)
                   (products st))
      ∧ serialisable_record (<["stock_level" := JInt z]> old).
Proof.
  unfold update_stock.
  destruct (request_role auth_data) as [role| | |]; cbn [res_bind]; [|done..].
  destruct (negb _); [intros [= <- <-]; left; tauto|].
  destruct (find_product product_id st) as [old|] eqn:Hf;
    [|intros [= <- <-]; left; tauto].
  destruct (_ || _); [intros [= <- <-]; left; tauto|].
  destruct (dict_item old "stock_level") as [v| | |]; cbn [res_bind]; [|done..].
  destruct (py_add_int v _) as [level| | |] eqn:Ha; cbn [res_bind];
    [|done..].
  apply py_add_int_Ok in Ha as [z ->].
  intros (-> & -> & Hser)%respond_Ok. right. by exists old, z.
Qed.

(** When it raises after the assignment, the store holds the new level. *)
Lemma update_stock_Wrote product_id auth_data st e st' :
  update_stock product_id auth_data st = Wrote e st' →
  ∃ old z,
    find_product product_id st = Some old
    ∧ st' = set_products st
              (idict_set product_id (<["stock_level" := JInt z]> old)
                 (products st)).
Proof.
  unfold update_stock.
  destruct (request_role auth_data) as [role| | |] eqn:Hr; cbn [res_bind];
    [|done| |done].
  2: { unfold request_role, get_user_role in Hr.
       destruct (hashable _); [|done].
       destruct (dict_get auth_data "username") as [| | |name| |]; try done.
       destruct (users !! name) as [u|]; [|done].
       by destruct (eq_str _ _). }
  destruct (negb _); [done|].
  destruct (find_product product_id st) as [old|] eqn:Hf; [|done].
  destruct (_ || _); [done|].
  destruct (dict_item old "stock_level") as [v| | |] eqn:Hv; cbn [res_bind];
    [|done| |done].
  2: { unfold dict_item in Hv. by destruct (old !! "stock_level"). }
  destruct (py_add_int v _) as [level| | |] eqn:Ha; cbn [res_bind];
    [|done| |done].
  2: { unfold py_add_int in Ha. by destruct (as_int v). }
  apply py_add_int_Ok in Ha as [z ->].
  rewrite respond_cases. destruct (serialisable _); [done|].
  intros [= <- <-]. by exists old, z.
Qed.



(** The example of the specification, evaluated: 50 becomes -950. *)
Example update_stock_below_zero :
  update_stock 2 (<["change" := JInt (-1000)]> staff_auth) initial_store
  = Ok (Response 200
          (JObj (mk_product 2 "Router X-500" "Networking" (-950) 20)),
        set_products initial_store
          [ (1, mk_product 1 "Fiber Optic Cable" "Cables" 500 100);
            (2, mk_product 2 "Router X-500" "Networking" (-950) 20);
            (3, mk_product 3 "Modem Pro-100" "Networking" 75 15);
            (4, mk_product 4 "Satellite Dish" "Antennas" 10 5) ]).
Proof. vm_compute. reflexivity. Qed.


(** A stock level that is not a number cannot be adjusted either. *)
Example update_stock_untyped :
  (run initial_store
     [ untyped_stock_request;
       PutStock 5 (<["change" := JInt 1]> staff_auth) ]).1
  = [ Ok (Response 201
            (JObj (obj [ ("id", JInt 5); ("name", JStr "Patch Panel");
                         ("category", JStr "Networking");
                         ("stock_level", JStr "12");
                         ("reorder_point", JInt 4) ])));
      Raise TypeError ].
Proof. vm_compute. reflexivity. Qed.

(** A rejected change is answered 400 and the store is left as it was. *)
Lemma update_stock_rejects (product_id : Z) (auth_data : record) (st : store)
    (role : string) (product : record) :
  request_role auth_data = Ok (JStr role) →
  role = "Admin" ∨ role = "Manager" ∨ role = "Staff" →
  find_product product_id st = Some product →
  rejected_change (auth_data !! "change") →
  update_stock product_id auth_data st =
    Ok (Response 400 (JObj (obj [("error", JStr "Invalid stock change value")])),
        st).
Proof.
  intros Hr Hrole Hf Hc. unfold update_stock. rewrite Hr, Hf. cbn [res_bind].
  rewrite (in_strs_roles _ Hrole). cbn [negb]. unfold dict_get_default.
  destruct (auth_data !! "change") as [[|b|z| | |]|]; simpl in *; try done.
  - by rewrite Hc.
  - by rewrite Hc.
Qed.

(** The boolean [true] passes the validation and counts as 1. *)
Lemma update_stock_true (product_id : Z) (auth_data : record) (st : store)
    (role : string) (product : record) (s : Z) :
  request_role auth_data = Ok (JStr role) →
  role = "Admin" ∨ role = "Manager" ∨ role = "Staff" →
  find_product product_id st = Some product →
  product !! "stock_level" = Some (JInt s) →
  auth_data !! "change" = Some (JBool true) →
  serialisable_record (<["stock_level" := JInt (s + 1)]> product) →
  update_stock product_id auth_data st =
    Ok (Response 200 (JObj (<["stock_level" := JInt (s + 1)]> product)),
        set_products st
          (idict_set product_id (<["stock_level" := JInt (s + 1)]> product)
             (products st))).
Proof.
  intros Hr Hrole Hf Hs Hc Hser. unfold update_stock. rewrite Hr, Hf.
  cbn [res_bind]. rewrite (in_strs_roles _ Hrole). cbn [negb].
  unfold dict_get_default, dict_item. rewrite Hc, Hs.
  cbn [default from_option id isinstance_int negb orb as_int py_add_int
       res_bind eq_zero Z.eqb].
  by apply respond_serialisable.
Qed.

(** C8. The type test on [change] is [isinstance(change, int)], which a
    JSON boolean passes: [true] is not an integer, yet the request is
    answered 200 and the stock of the product grows by one. *)
Theorem update_stock_accepts_true :
  update_stock 2 (<["change" := JBool true]> staff_auth) initial_store
  = Ok (Response 200 (JObj (mk_product 2 "Router X-500" "Networking" 51 20)),
        set_products initial_store
          [ (1, mk_product 1 "Fiber Optic Cable" "Cables" 500 100);
            (2, mk_product 2 "Router X-500" "Networking" 51 20);
            (3, mk_product 3 "Modem Pro-100" "Networking" 75 15);
            (4, mk_product 4 "Satellite Dish" "Antennas" 10 5) ]).
Proof. vm_compute. reflexivity. Qed.

(** ** C9: deleting a product that is not there *)

(** C9. [DELETE /products/{id}] with Admin credentials, for an id that is
    not a key of the product collection, is answered 404 and leaves the
    whole store (the collection and the counters) exactly as it was. *)
Theorem delete_product_missing (product_id : Z) (auth_data : record)
    (st : store) :
  request_role auth_data = Ok (JStr "Admin") →
  product_id ∉ idict_keys (products st) →
  delete_product product_id auth_data st =
    Ok (Response 404 (JObj (obj [("error", JStr "Product not found")])), st).
Proof.
  intros Hr Hk. unfold delete_product. rewrite Hr. cbn [res_bind].
  apply idict_get_None in Hk. by rewrite Hk.
Qed.

Lemma delete_product_missing_witness :
  delete_product 7 admin_auth initial_store =
    Ok (Response 404 (JObj (obj [("error", JStr "Product not found")])),
        initial_store).
Proof.
  apply (delete_product_missing 7 admin_auth initial_store);
    [reflexivity | by apply idict_get_None].
Defined.

(** ** Exceptions and the store *)

(** Only the two handlers that serialise a record they have just written
    can raise with a changed store: the helpers and the other handlers
    never do. *)
Lemma get_user_role_pure username password e st :
  get_user_role username password = Wrote e st → False.
Proof.
  unfold get_user_role. destruct (hashable username); [|done].
  destruct username as [| | |name| |]; try done.
  destruct (users !! name) as [u|]; [|done].
  by destruct (eq_str password (user_password u)).
Qed.

Lemma request_role_pure auth_data e st :
  request_role auth_data = Wrote e st → False.
Proof. apply get_user_role_pure. Qed.

Lemma dict_item_pure d k e st : dict_item d k = Wrote e st → False.
Proof. unfold dict_item. by destruct (d !! k). Qed.

Lemma py_item_pure v k e st : py_item v k = Wrote e st → False.
Proof. destruct v; try done. apply dict_item_pure. Qed.

Lemma py_contains_pure k v e st : py_contains k v = Wrote e st → False.
Proof. by destruct v. Qed.

Lemma all_contained_pure ks v e st : all_contained ks v = Wrote e st → False.
Proof.
  induction ks as [|k ks IH]; simpl; [done|].
  destruct (py_contains k v) as [[]| | |] eqn:Hk; cbn [res_bind]; try done.
  by apply py_contains_pure in Hk.
Qed.

Lemma missing_keys_pure data keys e st :
  missing_keys data keys = Wrote e st → False.
Proof.
  unfold missing_keys. destruct (negb _); [done|].
  destruct (all_contained keys data) eqn:Hk; cbn [res_bind]; try done.
  by apply all_contained_pure in Hk.
Qed.

Lemma py_add_int_pure a c e st : py_add_int a c = Wrote e st → False.
Proof. unfold py_add_int. by destruct (as_int a). Qed.

Lemma py_lower_pure v e st : py_lower v = Wrote e st → False.
Proof. by destruct v. Qed.

Lemma py_lt_pure a b e st : py_lt a b = Wrote e st → False.
Proof.
  unfold py_lt. destruct (as_int a), (as_int b); try done;
    by destruct a, b.
Qed.

Lemma py_le_zero_pure a e st : py_le_zero a = Wrote e st → False.
Proof. unfold py_le_zero. by destruct (as_int a). Qed.

Lemma jsonify_pure v e st : jsonify v = Wrote e st → False.
Proof. unfold jsonify. by destruct (serialisable v). Qed.

Create HintDb pure.
#[export] Hint Resolve get_user_role_pure request_role_pure dict_item_pure
  py_item_pure py_contains_pure all_contained_pure missing_keys_pure
  py_add_int_pure py_lower_pure py_lt_pure py_le_zero_pure jsonify_pure : pure.

(** One step through a sequence of Python statements: the statement
    returns a value and the rest runs, or the goal is about an outcome
    that an exception in this statement does not lead to. *)
Ltac step_bind :=
  match goal with
  | |- context [res_bind ?x _] =>
      let H := fresh "Hb" in
      destruct x eqn:H; cbn [res_bind];
      try (intros; simplify_eq; fail);
      try (exfalso; eauto with pure; fail)
  end.

Lemma field_contains_pure field query p e st :
  field_contains field query p = Wrote e st → False.
Proof. unfold field_contains. by do 2 step_bind. Qed.

Lemma is_low_pure p e st : is_low p = Wrote e st → False.
Proof.
  unfold is_low. do 2 step_bind. apply py_lt_pure.
Qed.

Lemma is_out_of_stock_pure p e st : is_out_of_stock p = Wrote e st → False.
Proof. unfold is_out_of_stock. step_bind. apply py_le_zero_pure. Qed.

Lemma filter_res_pure {A} (f : A → res bool) l e st :
  (∀ x, f x = Wrote e st → False) → filter_res f l = Wrote e st → False.
Proof.
  intros Hf. induction l as [|x l IH]; simpl; [done|].
  destruct (f x) eqn:Hx; cbn [res_bind]; try done.
  - by destruct (filter_res f l).
  - intros [= <- <-]. by eapply Hf.
Qed.

Lemma get_products_pure args st e st' :
  get_products args st = Wrote e st' → False.
Proof.
  unfold get_products.
  destruct (if nonempty (arg_lower args "name") then _ else _)
    as [l1| | |] eqn:H1; cbn [res_bind]; try done.
  2: { intros [= <- <-]. destruct (nonempty (arg_lower args "name")); [|done].
       eapply filter_res_pure; [|exact H1].
       intros; by eapply field_contains_pure. }
  destruct (if nonempty (arg_lower args "category") then _ else _)
    as [l2| | |] eqn:H2; cbn [res_bind]; try done.
  2: { intros [= <- <-].
       destruct (nonempty (arg_lower args "category")); [|done].
       eapply filter_res_pure; [|exact H2].
       intros; by eapply field_contains_pure. }
  destruct (if nonempty (arg_lower args "stock_status") then _ else _)
    as [l3| | |] eqn:H3; cbn [res_bind]; try done.
  2: { intros [= <- <-].
       destruct (nonempty (arg_lower args "stock_status")); [|done].
       destruct (String.eqb _ "low").
       - eapply filter_res_pure; [|exact H3]. intros; by eapply is_low_pure.
       - destruct (String.eqb _ _); [|done].
         eapply filter_res_pure; [|exact H3].
         intros; by eapply is_out_of_stock_pure. }
  by step_bind.
Qed.

Lemma login_pure auth_data e st : login auth_data = Wrote e st → False.
Proof. unfold login. step_bind. by destruct (truthy _). Qed.

Lemma add_product_pure auth_data st e st' :
  add_product auth_data st = Wrote e st' → False.
Proof.
  unfold add_product. step_bind. destruct (negb _); [done|].
  step_bind. destruct a0; [done|]. by do 4 step_bind.
Qed.

Lemma add_supplier_pure auth_data st e st' :
  add_supplier auth_data st = Wrote e st' → False.
Proof.
  unfold add_supplier. step_bind. destruct (negb _); [done|].
  step_bind. destruct a0; [done|]. by step_bind.
Qed.

Lemma delete_product_pure product_id auth_data st e st' :
  delete_product product_id auth_data st = Wrote e st' → False.
Proof.
  unfold delete_product. step_bind. destruct (negb (eq_str _ _)); [done|].
  by destruct (negb (bool_decide _)).
Qed.

#[export] Hint Resolve field_contains_pure is_low_pure is_out_of_stock_pure
  get_products_pure login_pure add_product_pure add_supplier_pure
  delete_product_pure : pure.

(** ** C5: identifiers *)

Lemma add_product_transition auth_data st r st' :
  add_product auth_data st = Ok (r, st') →
  transition st (created_id (Ok r)) None st'.
Proof.
  unfold add_product. step_bind.
  destruct (negb _); [intros [= <- <-]; constructor|].
  step_bind. destruct a0; [intros [= <- <-]; constructor|].
  do 4 step_bind. intros [= <- <-].
  cbn [created_id]. rewrite lookup_insert_eq. constructor.
  apply lookup_insert_eq.
Qed.

Lemma add_supplier_transition auth_data st r st' :
  add_supplier auth_data st = Ok (r, st') →
  transition st None (created_id (Ok r)) st'.
Proof.
  unfold add_supplier. step_bind.
  destruct (negb _); [intros [= <- <-]; constructor|].
  step_bind. destruct a0; [intros [= <- <-]; constructor|].
  step_bind. intros [= <- <-].
  cbn [created_id]. rewrite lookup_insert_eq. constructor.
  apply lookup_insert_eq.
Qed.

Lemma merged_non_empty (update_data old : record) :
  old ≠ ∅ → update_data ∪ old ≠ ∅.
Proof.
  intros Hne Hu. apply Hne, map_empty. intros key.
  assert ((update_data ∪ old) !! key = None) as Hk
    by by rewrite Hu, lookup_empty.
  by apply lookup_union_None in Hk as [_ ?].
Qed.

Lemma product_written st product_id old new :
  find_product product_id st = Some old → new ≠ ∅ →
  transition st None None
    (set_products st (idict_set product_id new (products st))).
Proof.
  intros [Hg _]%find_product_Some Hne.
  constructor; [apply idict_get_is_Some; by exists old | done].
Qed.

Lemma update_product_transition product_id auth_data st r st' :
  update_product product_id auth_data st = Ok (r, st') →
  transition st None None st'.
Proof.
  intros [[_ ->]|[[_ ->]|(old & Hf & _ & -> & _)]]%update_product_Ok;
    [constructor..|].
  eapply product_written; [done|].
  apply merged_non_empty. by apply find_product_Some in Hf as [_ ?].
Qed.

Lemma update_product_wrote_transition product_id auth_data st e st' :
  update_product product_id auth_data st = Wrote e st' →
  transition st None None st'.
Proof.
  intros (old & Hf & ->)%update_product_Wrote.
  eapply product_written; [done|].
  apply merged_non_empty. by apply find_product_Some in Hf as [_ ?].
Qed.

Lemma update_stock_transition product_id auth_data st r st' :
  update_stock product_id auth_data st = Ok (r, st') →
  transition st None None st'.
Proof.
  intros [[-> _]|(old & z & Hf & _ & -> & _)]%update_stock_Ok;
    [constructor|].
  eapply product_written; [done | apply insert_non_empty].
Qed.

Lemma update_stock_wrote_transition product_id auth_data st e st' :
  update_stock product_id auth_data st = Wrote e st' →
  transition st None None st'.
Proof.
  intros (old & z & Hf & ->)%update_stock_Wrote.
  eapply product_written; [done | apply insert_non_empty].
Qed.

Lemma delete_product_transition product_id auth_data st r st' :
  delete_product product_id auth_data st = Ok (r, st') →
  transition st None None st'.
Proof.
  unfold delete_product. step_bind.
  destruct (negb (eq_str _ _)); [intros [= <- <-]; constructor|].
  destruct (negb (bool_decide _)); intros [= <- <-]; constructor.
Qed.

(** A request that raises once the store is written is a stock adjustment
    or an update. *)
Lemma handle_Wrote req st e st' :
  handle req st = Wrote e st' →
  (∃ product_id auth_data,
      req = PutProduct product_id auth_data
      ∧ update_product product_id auth_data st = Wrote e st')
  ∨ (∃ product_id auth_data,
        req = PutStock product_id auth_data
        ∧ update_stock product_id auth_data st = Wrote e st').
Proof.
  destruct req; cbn [handle].
  - by step_bind.
  - by step_bind.
  - by intros ?%add_product_pure.
  - intros H. left. by eexists _, _.
  - by intros ?%delete_product_pure.
  - intros H. right. by eexists _, _.
  - done.
  - by intros ?%add_supplier_pure.
Qed.

(** Every served request is one of the transitions. *)
Lemma serve_transition req st o st' :
  serve req st = (o, st') →
  transition st (created_product_id req o) (created_supplier_id req o) st'.
Proof.
  unfold serve. destruct (handle req st) as [[r st1]| | |] eqn:Hh;
    intros [= <- <-].
  - destruct req; cbn [handle created_product_id created_supplier_id] in *.
    + destruct (login auth_data); simplify_eq/=. constructor.
    + destruct (get_products args st); simplify_eq/=. constructor.
    + by eapply add_product_transition.
    + by eapply update_product_transition.
    + by eapply delete_product_transition.
    + by eapply update_stock_transition.
    + simplify_eq/=. constructor.
    + by eapply add_supplier_transition.
  - destruct req; constructor.
  - apply handle_Wrote in Hh
      as [(i & a & -> & Hw)|(i & a & -> & Hw)]; cbn.
    + by eapply update_product_wrote_transition.
    + by eapply update_stock_wrote_transition.
  - destruct req; constructor.
Qed.

Lemma initial_store_ids_ok : ids_ok initial_store.
Proof.
  split; apply (bool_decide_unpack _); vm_compute; reflexivity.
Qed.

Section fresh_key.
Context {V : Type}.
Implicit Types (d : list (Z * V)) (k c : Z) (v : V).

Lemma below_fresh d c : Forall (λ k, k < c) (idict_keys d) → c ∉ idict_keys d.
Proof. rewrite Forall_forall. intros Hb Hc. specialize (Hb _ Hc). lia. Qed.

Lemma NoDup_set_fresh d c v :
  NoDup (idict_keys d) → Forall (λ k, k < c) (idict_keys d) →
  NoDup (idict_keys (idict_set c v d)).
Proof.
  intros Hn Hb. rewrite idict_keys_set_absent by by apply below_fresh.
  apply NoDup_app. split_and!; [done| |apply NoDup_singleton].
  intros x Hx ->%list_elem_of_singleton. by eapply below_fresh.
Qed.

Lemma below_set_fresh d c v :
  Forall (λ k, k < c) (idict_keys d) →
  Forall (λ k, k < c + 1) (idict_keys (idict_set c v d)).
Proof.
  intros Hb. rewrite idict_keys_set_absent by by apply below_fresh.
  apply Forall_app. split.
  - eapply Forall_impl; [exact Hb|]. intros; simpl in *; lia.
  - repeat constructor. lia.
Qed.

Lemma below_del d c k :
  Forall (λ k, k < c) (idict_keys d) →
  Forall (λ k, k < c) (idict_keys (idict_del k d)).
Proof.
  rewrite !Forall_forall. intros Hb x Hx. apply Hb.
  eapply elem_of_sublist; [exact Hx | apply idict_keys_del_sublist].
Qed.
End fresh_key.

Lemma transition_ids_ok st a b st' :
  transition st a b st' → ids_ok st → ids_ok st'.
Proof.
  intros Ht [Hpn Hsn Hpb Hsb].
  destruct Ht as [|k p Hk _|k|p _|s _]; split; simpl; try done.
  - by rewrite idict_keys_set_present.
  - by rewrite idict_keys_set_present.
  - eapply sublist_NoDup; [exact Hpn | apply idict_keys_del_sublist].
  - by apply below_del.
  - by apply NoDup_set_fresh.
  - by apply below_set_fresh.
  - by apply NoDup_set_fresh.
  - by apply below_set_fresh.
Qed.

(** A transition hands out the current value of a counter and increments
    it; nothing else touches a counter. *)
Lemma transition_counters st a b st' :
  transition st a b st' →
  product_id_counter st' =
    match a with Some i => i + 1 | None => product_id_counter st end
  ∧ supplier_id_counter st' =
    match b with Some i => i + 1 | None => supplier_id_counter st end
  ∧ (∀ i, a = Some i → i = product_id_counter st)
  ∧ (∀ i, b = Some i → i = supplier_id_counter st).
Proof. destruct 1; simpl; split_and!; try done; by intros ? [= <-]. Qed.

(** The keys after a transition are keys from before or the id handed
    out. *)
Lemma transition_keys st a b st' :
  transition st a b st' →
  (∀ k, k ∈ idict_keys (products st') →
        k ∈ idict_keys (products st) ∨ a = Some k)
  ∧ (∀ k, k ∈ idict_keys (suppliers st') →
          k ∈ idict_keys (suppliers st) ∨ b = Some k).
Proof.
  destruct 1 as [|k p Hk _|k|p _|s _]; simpl; split; intros x Hx; try tauto.
  - rewrite idict_keys_set_present in Hx by done. tauto.
  - left. eapply elem_of_sublist; [exact Hx | apply idict_keys_del_sublist].
  - destruct (decide (product_id_counter st ∈ idict_keys (products st))).
    + rewrite idict_keys_set_present in Hx by done. tauto.
    + rewrite idict_keys_set_absent in Hx by done.
      apply elem_of_app in Hx as [?| ->%list_elem_of_singleton]; tauto.
  - destruct (decide (supplier_id_counter st ∈ idict_keys (suppliers st))).
    + rewrite idict_keys_set_present in Hx by done. tauto.
    + rewrite idict_keys_set_absent in Hx by done.
      apply elem_of_app in Hx as [?| ->%list_elem_of_singleton]; tauto.
Qed.

Lemma serve_counters req st o st' :
  serve req st = (o, st') →
  product_id_counter st ≤ product_id_counter st'
  ∧ supplier_id_counter st ≤ supplier_id_counter st'.
Proof.
  intros Ht%serve_transition.
  destruct (transition_counters _ _ _ _ Ht) as (-> & -> & Ha & Hb).
  destruct (created_product_id req o) as [i|];
    destruct (created_supplier_id req o) as [j|];
    rewrite ?(Ha _ eq_refl), ?(Hb _ eq_refl); lia.
Qed.

Lemma run_cons st req reqs outs st' :
  run st (req :: reqs) = (outs, st') →
  ∃ o st1 outs1,
    serve req st = (o, st1) ∧ run st1 reqs = (outs1, st') ∧ outs = o :: outs1.
Proof.
  change (run st (req :: reqs))
    with (let '(o, st1) := serve req st in
          let '(os, st2) := run st1 reqs in (o :: os, st2)).
  destruct (serve req st) as [o st1].
  destruct (run st1 reqs) as [outs1 st2] eqn:Hr. intros [= <- <-].
  by eexists _, _, _.
Qed.

Lemma assigned_cons f req reqs o outs :
  assigned f (req :: reqs) (o :: outs)
  = option_list (f req o) ++ assigned f reqs outs.
Proof. simpl. by destruct (f req o). Qed.

Lemma run_ids_ok st reqs outs st' :
  run st reqs = (outs, st') → ids_ok st → ids_ok st'.
Proof.
  revert st outs. induction reqs as [|req reqs IH]; intros st outs.
  - by intros [= _ <-].
  - intros (o & st1 & outs1 & Hs & Hr & _)%run_cons Hok.
    eapply IH; [exact Hr|].
    eapply transition_ids_ok; [by apply serve_transition|done].
Qed.

(** The ids a counter hands out during a run, and the keys that appear. *)
Section handed_out.
Variables (counter : store → Z) (keys : store → list Z)
          (f : request → res response → option Z).
Hypothesis counter_step : ∀ req st o st',
  serve req st = (o, st') →
  counter st' = match f req o with Some i => i + 1 | None => counter st end
  ∧ ∀ i, f req o = Some i → i = counter st.
Hypothesis keys_step : ∀ req st o st' k,
  serve req st = (o, st') → k ∈ keys st' → k ∈ keys st ∨ f req o = Some k.

Lemma run_assigned st reqs outs st' :
  run st reqs = (outs, st') →
  counter st ≤ counter st'
  ∧ StronglySorted Z.lt (assigned f reqs outs)
  ∧ Forall (λ i, counter st ≤ i < counter st') (assigned f reqs outs).
Proof.
  revert st outs. induction reqs as [|req reqs IH]; intros st outs.
  - intros [= <- <-]. split_and!; [lia | constructor..].
  - intros (o & st1 & outs1 & Hs & Hr & ->)%run_cons.
    destruct (IH _ _ Hr) as (Hle & Hsorted & Hall).
    destruct (counter_step _ _ _ _ Hs) as [Hc Hi].
    rewrite assigned_cons.
    destruct (f req o) as [i|]; simpl.
    + specialize (Hi _ eq_refl) as ->. split_and!; [lia| |].
      * constructor; [done|].
        eapply Forall_impl; [exact Hall|]. intros; simpl in *; lia.
      * constructor; [lia|].
        eapply Forall_impl; [exact Hall|]. intros; simpl in *; lia.
    + rewrite <- Hc. by split_and!.
Qed.

Lemma run_keys st reqs outs st' k :
  run st reqs = (outs, st') →
  k ∈ keys st' → k ∈ keys st ∨ k ∈ assigned f reqs outs.
Proof.
  revert st outs. induction reqs as [|req reqs IH]; intros st outs.
  - intros [= <- <-]. tauto.
  - intros (o & st1 & outs1 & Hs & Hr & ->)%run_cons Hk.
    rewrite assigned_cons, elem_of_app.
    destruct (IH _ _ Hr Hk) as [Hk1|?]; [|tauto].
    destruct (keys_step _ _ _ _ _ Hs Hk1) as [?| ->]; [tauto|].
    right; left. simpl. by left.
Qed.
End handed_out.

Lemma product_counter_step req st o st' :
  serve req st = (o, st') →
  product_id_counter st' =
    match created_product_id req o with
    | Some i => i + 1
    | None => product_id_counter st
    end
  ∧ ∀ i, created_product_id req o = Some i → i = product_id_counter st.
Proof.
  intros Ht%serve_transition.
  destruct (transition_counters _ _ _ _ Ht) as (? & _ & ? & _). by split.
Qed.

Lemma supplier_counter_step req st o st' :
  serve req st = (o, st') →
  supplier_id_counter st' =
    match created_supplier_id req o with
    | Some i => i + 1
    | None => supplier_id_counter st
    end
  ∧ ∀ i, created_supplier_id req o = Some i → i = supplier_id_counter st.
Proof.
  intros Ht%serve_transition.
  destruct (transition_counters _ _ _ _ Ht) as (_ & ? & _ & ?). by split.
Qed.

Lemma product_keys_step req st o st' k :
  serve req st = (o, st') →
  k ∈ idict_keys (products st') →
  k ∈ idict_keys (products st) ∨ created_product_id req o = Some k.
Proof.
  intros Ht%serve_transition. by apply (proj1 (transition_keys _ _ _ _ Ht)).
Qed.

Lemma supplier_keys_step req st o st' k :
  serve req st = (o, st') →
  k ∈ idict_keys (suppliers st') →
  k ∈ idict_keys (suppliers st) ∨ created_supplier_id req o = Some k.
Proof.
  intros Ht%serve_transition. by apply (proj2 (transition_keys _ _ _ _ Ht)).
Qed.

(** What a successful create does. *)
Lemma add_product_created auth_data st r st' :
  add_product auth_data st = Ok (r, st') →
  status r = 201 →
  ∃ new,
    r = Response 201 (JObj new)
    ∧ record_id new = Some (JInt (product_id_counter st))
    ∧ idict_get (product_id_counter st) (products st') = Some new
    ∧ product_id_counter st' = product_id_counter st + 1.
Proof.
  unfold add_product. step_bind.
  destruct (negb _); [intros; by simplify_eq/=|].
  step_bind. destruct a0; [intros; by simplify_eq/=|].
  do 4 step_bind. intros [= <- <-] _.
  eexists. split_and!; [done| |apply idict_get_set_eq|done].
  apply lookup_insert_eq.
Qed.

Lemma add_supplier_created auth_data st r st' :
  add_supplier auth_data st = Ok (r, st') →
  status r = 201 →
  ∃ new,
    r = Response 201 (JObj new)
    ∧ record_id new = Some (JInt (supplier_id_counter st))
    ∧ idict_get (supplier_id_counter st) (suppliers st') = Some new
    ∧ supplier_id_counter st' = supplier_id_counter st + 1.
Proof.
  unfold add_supplier. step_bind.
  destruct (negb _); [intros; by simplify_eq/=|].
  step_bind. destruct a0; [intros; by simplify_eq/=|].
  step_bind. intros [= <- <-] _.
  eexists. split_and!; [done| |apply idict_get_set_eq|done].
  apply lookup_insert_eq.
Qed.

Lemma Forall_idict_set {V} (P : Z * V → Prop) k v (d : list (Z * V)) :
  Forall P d → P (k, v) → Forall P (idict_set k v d).
Proof.
  intros Hd Hkv. induction Hd as [|[k' v'] d Hx Hd IH]; simpl.
  - by constructor.
  - case_decide; by constructor.
Qed.

Lemma transition_suppliers_labelled st a b st' :
  transition st a b st' → suppliers_labelled st → suppliers_labelled st'.
Proof.
  unfold suppliers_labelled.
  destruct 1 as [|k p Hk _|k|p _|s Hs]; simpl; try done.
  intros Hl. by apply Forall_idict_set.
Qed.

Lemma run_suppliers_labelled st reqs outs st' :
  run st reqs = (outs, st') → suppliers_labelled st → suppliers_labelled st'.
Proof.
  revert st outs. induction reqs as [|req reqs IH]; intros st outs.
  - by intros [= _ <-].
  - intros (o & st1 & outs1 & Hs & Hr & _)%run_cons Hok.
    eapply IH; [exact Hr|].
    eapply transition_suppliers_labelled; [by apply serve_transition|done].
Qed.

Lemma supplier_ids_keys st :
  suppliers_labelled st →
  supplier_ids st = (λ k, Some (JInt k)) <$> idict_keys (suppliers st).
Proof.
  unfold suppliers_labelled, supplier_ids, idict_values, idict_keys.
  induction 1 as [|[k s] d Hx _ IH]; [done|].
  rewrite !fmap_cons, IH. simpl in *. by rewrite Hx.
Qed.

Global Instance some_int_inj : Inj (=) (=) (λ k : Z, Some (JInt k)).
Proof. by intros k1 k2 [= ->]. Qed.

Lemma initial_product_keys : idict_keys (products initial_store) = [1; 2; 3; 4].
Proof. reflexivity. Qed.

Lemma initial_supplier_keys : idict_keys (suppliers initial_store) = [1; 2].
Proof. reflexivity. Qed.

(** C5 (amended). After every run of the server from its initial state
    (a run all of whose outcomes the embedding accounts for): the keys of the product collection and of the supplier collection are
    pairwise distinct, and so are the ids the supplier records report; the
    ids handed out by the creates of the run, put after the initial keys,
    are strictly increasing; every key present is one of them, whatever was
    deleted in between; all of them lie below the counter, which is the id
    the next successful create stores its record under and reports; and no
    request makes a counter smaller. *)
Theorem assigned_ids_never_reused (reqs : list request)
    (outs : list (res response)) (st : store) :
  run initial_store reqs = (outs, st) →
  Forall modelled outs →
  (NoDup (idict_keys (products st)) ∧ NoDup (idict_keys (suppliers st))
   ∧ NoDup (supplier_ids st))
  ∧ (StronglySorted Z.lt
       (idict_keys (products initial_store)
        ++ assigned created_product_id reqs outs)
     ∧ StronglySorted Z.lt
         (idict_keys (suppliers initial_store)
          ++ assigned created_supplier_id reqs outs))
  ∧ ((∀ k, k ∈ idict_keys (products st) →
           k ∈ idict_keys (products initial_store)
               ++ assigned created_product_id reqs outs)
     ∧ (∀ k, k ∈ idict_keys (suppliers st) →
             k ∈ idict_keys (suppliers initial_store)
                 ++ assigned created_supplier_id reqs outs))
  ∧ (Forall (λ k, k < product_id_counter st)
       (idict_keys (products initial_store)
        ++ assigned created_product_id reqs outs)
     ∧ Forall (λ k, k < supplier_id_counter st)
         (idict_keys (suppliers initial_store)
          ++ assigned created_supplier_id reqs outs))
  ∧ (∀ auth_data r st1,
       add_product auth_data st = Ok (r, st1) → status r = 201 →
       ∃ new, r = Response 201 (JObj new)
              ∧ record_id new = Some (JInt (product_id_counter st))
              ∧ idict_get (product_id_counter st) (products st1) = Some new
              ∧ product_id_counter st1 = product_id_counter st + 1)
  ∧ (∀ auth_data r st1,
       add_supplier auth_data st = Ok (r, st1) → status r = 201 →
       ∃ new, r = Response 201 (JObj new)
              ∧ record_id new = Some (JInt (supplier_id_counter st))
              ∧ idict_get (supplier_id_counter st) (suppliers st1) = Some new
              ∧ supplier_id_counter st1 = supplier_id_counter st + 1)
  ∧ (∀ req o st1,
       serve req st = (o, st1) →
       product_id_counter st ≤ product_id_counter st1
       ∧ supplier_id_counter st ≤ supplier_id_counter st1).
Proof.
  intros Hrun _.
  pose proof (run_ids_ok _ _ _ _ Hrun initial_store_ids_ok) as [Hpn Hsn _ _].
  destruct (run_assigned product_id_counter created_product_id
              product_counter_step _ _ _ _ Hrun) as (Hple & Hps & Hpa).
  destruct (run_assigned supplier_id_counter created_supplier_id
              supplier_counter_step _ _ _ _ Hrun) as (Hsle & Hss & Hsa).
  assert (suppliers_labelled st) as Hlab.
  { eapply run_suppliers_labelled; [exact Hrun|].
    repeat constructor. }
  rewrite initial_product_keys, initial_supplier_keys.
  change (product_id_counter initial_store) with 5 in *.
  change (supplier_id_counter initial_store) with 3 in *.
  assert (Forall (λ k, k < 5) [1; 2; 3; 4]) as Hp0 by (repeat constructor; lia).
  assert (Forall (λ k, k < 3) [1; 2]) as Hs0 by (repeat constructor; lia).
  split_and!; try done.
  - rewrite supplier_ids_keys by done. by apply (NoDup_fmap_2 _).
  - apply StronglySorted_app_2; [|repeat constructor; lia|done].
    intros x1 x2 Hx1 Hx2. rewrite Forall_forall in Hpa, Hp0.
    specialize (Hpa _ Hx2). specialize (Hp0 _ Hx1). simpl in *. lia.
  - apply StronglySorted_app_2; [|repeat constructor; lia|done].
    intros x1 x2 Hx1 Hx2. rewrite Forall_forall in Hsa, Hs0.
    specialize (Hsa _ Hx2). specialize (Hs0 _ Hx1). simpl in *. lia.
  - intros k Hk. apply elem_of_app. rewrite <- initial_product_keys.
    by eapply (run_keys (λ st, idict_keys (products st))),
      Hk; [apply product_keys_step|].
  - intros k Hk. apply elem_of_app. rewrite <- initial_supplier_keys.
    by eapply (run_keys (λ st, idict_keys (suppliers st))),
      Hk; [apply supplier_keys_step|].
  - apply Forall_app. split.
    + eapply Forall_impl; [exact Hp0|]. intros; simpl in *; lia.
    + eapply Forall_impl; [exact Hpa|]. intros; simpl in *; lia.
  - apply Forall_app. split.
    + eapply Forall_impl; [exact Hs0|]. intros; simpl in *; lia.
    + eapply Forall_impl; [exact Hsa|]. intros; simpl in *; lia.
  - intros auth_data r st1. apply add_product_created.
  - intros auth_data r st1. apply add_supplier_created.
  - intros req o st1. apply serve_counters.
Qed.

Example delete_then_create_keys :
  idict_keys (products (run initial_store delete_then_create).2)
  = [1; 2; 3; 5; 6]
  ∧ assigned created_product_id delete_then_create
      (run initial_store delete_then_create).1 = [5; 6]
  ∧ assigned created_supplier_id delete_then_create
      (run initial_store delete_then_create).1 = [3].
Proof. vm_compute. done. Qed.

Lemma assigned_ids_never_reused_witness :
  NoDup (idict_keys (products (run initial_store delete_then_create).2))
  ∧ StronglySorted Z.lt
      (idict_keys (products initial_store)
       ++ assigned created_product_id delete_then_create
            (run initial_store delete_then_create).1).
Proof.
  destruct (assigned_ids_never_reused delete_then_create
              (run initial_store delete_then_create).1
              (run initial_store delete_then_create).2)
    as ((Hn & _) & (Hs & _) & _).
  - by destruct (run initial_store delete_then_create).
  - vm_compute. repeat (constructor; [intros [=]|]). constructor.
  - by split.
Defined.

(** C5 as stated fails for the ids the products report: an update whose
    partial product carries an ["id"] gives a product the id of another
    one. *)
Lemma product_ids_not_unique :
  Forall modelled (run initial_store [relabel_product]).1
  ∧ product_ids (run initial_store [relabel_product]).2
    = [Some (JInt 1); Some (JInt 1); Some (JInt 3); Some (JInt 4)]
  ∧ ¬ NoDup (product_ids (run initial_store [relabel_product]).2).
Proof.
  split_and!.
  - vm_compute. repeat (constructor; [intros [=]|]). constructor.
  - vm_compute. reflexivity.
  - intros H. vm_compute in H.
    inversion H as [|? ? Hn _]. apply Hn. by left.
Qed.

(** The same looseness lets a create hand out an id that a stored product
    already reports. *)
Example created_id_collides :
  let reqs :=
    [ PutProduct 2 (<["product" := JObj (obj [("id", JInt 5)])]> admin_auth);
      PostProducts (<["product" := new_product_payload]> admin_auth) ] in
  product_ids (run initial_store reqs).2
  = [Some (JInt 1); Some (JInt 5); Some (JInt 3); Some (JInt 4); Some (JInt 5)].
Proof. vm_compute. reflexivity. Qed.

(** ** Stores of well-typed products

    The query theorems assume products with the fields of the data model.
    The initial store is such a store, and requests whose product payloads
    carry strings and integers in the four fields keep it so. *)

Lemma Forall_values_set {V} (P : V → Prop) k v (d : list (Z * V)) :
  Forall P (idict_values d) → P v → Forall P (idict_values (idict_set k v d)).
Proof.
  unfold idict_values. intros Hd Hv.
  induction d as [|[k' v'] d IH]; simpl.
  - by repeat constructor.
  - rewrite fmap_cons in Hd. apply Forall_cons in Hd as [Hv' Hd].
    case_decide; rewrite fmap_cons; constructor; auto.
Qed.

Lemma Forall_values_del {V} (P : V → Prop) k (d : list (Z * V)) :
  Forall P (idict_values d) → Forall P (idict_values (idict_del k d)).
Proof.
  unfold idict_values. intros Hd.
  induction d as [|[k' v'] d IH]; simpl; [done|].
  rewrite fmap_cons in Hd. apply Forall_cons in Hd as [Hv' Hd].
  case_decide; [done|]. rewrite fmap_cons. constructor; auto.
Qed.

Lemma well_typed_merge m old :
  well_typed old → fields_typed m → well_typed (m ∪ old).
Proof.
  intros (n & c & s & r & Hn & Hc & Hs & Hr) (Tn & Tc & Ts & Tr).
  assert (∀ key v (T : json → Prop),
            old !! key = Some v → T v → (∀ w, m !! key = Some w → T w) →
            ∃ w, (m ∪ old) !! key = Some w ∧ T w) as Hkey.
  { intros key v T Hold Hv Hm. destruct (m !! key) as [w|] eqn:Hw.
    - exists w. split; [by apply lookup_union_Some_l | by apply Hm].
    - exists v. split; [by rewrite lookup_union_r | done]. }
  destruct (Hkey "name" _ is_str Hn (ex_intro _ n eq_refl) Tn)
    as (? & Hn' & n' & ->).
  destruct (Hkey "category" _ is_str Hc (ex_intro _ c eq_refl) Tc)
    as (? & Hc' & c' & ->).
  destruct (Hkey "stock_level" _ is_int Hs (ex_intro _ s eq_refl) Ts)
    as (? & Hs' & s' & ->).
  destruct (Hkey "reorder_point" _ is_int Hr (ex_intro _ r eq_refl) Tr)
    as (? & Hr' & r' & ->).
  by exists n', c', s', r'.
Qed.

Lemma well_typed_new_product (i : Z) (name category stock reorder : json) :
  is_str name → is_str category → is_int stock → is_int reorder →
  well_typed
    (obj [ ("id", JInt i); ("name", name); ("category", category);
           ("stock_level", stock); ("reorder_point", reorder) ]).
Proof. intros [n ->] [c ->] [s ->] [r ->]. by exists n, c, s, r. Qed.

Lemma py_item_supplied a key v :
  py_item (dict_get_default a "product" (JObj ∅)) key = Ok v →
  supplied a !! key = Some v.
Proof.
  unfold dict_get_default, supplied, py_item, dict_item.
  destruct (a !! "product") as [[| | | | |m]|]; simpl; try done.
  by destruct (m !! key); intros [= ->].
Qed.

Lemma well_typed_merged st product_id old m :
  Forall well_typed (idict_values (products st)) →
  find_product product_id st = Some old →
  fields_typed m →
  Forall well_typed
    (idict_values (idict_set product_id (m ∪ old) (products st))).
Proof.
  intros Hst [Hg _]%find_product_Some Hm.
  apply Forall_values_set; [done|]. apply well_typed_merge; [|done].
  rewrite Forall_forall in Hst. by eapply Hst, idict_get_elem_of.
Qed.

Lemma well_typed_adjusted st product_id old z :
  Forall well_typed (idict_values (products st)) →
  find_product product_id st = Some old →
  Forall well_typed
    (idict_values
       (idict_set product_id (<["stock_level" := JInt z]> old) (products st))).
Proof.
  intros Hst [Hg _]%find_product_Some.
  apply Forall_values_set; [done|].
  rewrite Forall_forall in Hst.
  destruct (Hst old) as (n & c & s & rp & Hn & Hc & Hs & Hr);
    [by eapply idict_get_elem_of|].
  exists n, c, z, rp. split_and!;
    [by rewrite lookup_insert_ne|by rewrite lookup_insert_ne
    |by rewrite lookup_insert_eq|by rewrite lookup_insert_ne].
Qed.

(** A well-typed request leaves a well-typed store well typed. *)
Lemma handle_well_typed req st r st' :
  typed_request req →
  Forall well_typed (idict_values (products st)) →
  handle req st = Ok (r, st') →
  Forall well_typed (idict_values (products st')).
Proof.
  intros Hreq Hst. destruct req; cbn [handle typed_request] in *.
  - step_bind. by intros [= _ <-].
  - step_bind. by intros [= _ <-].
  - unfold add_product. step_bind.
    destruct (negb _); [by intros [= _ <-]|].
    step_bind. destruct a0; [by intros [= _ <-]|].
    do 4 step_bind. intros [= _ <-]. simpl.
    destruct Hreq as (Tn & Tc & Ts & Tr).
    apply Forall_values_set; [done|].
    apply well_typed_new_product; eauto using py_item_supplied.
  - intros [[_ ->]|[[_ ->]|(old & Hf & _ & -> & _)]]%update_product_Ok;
      [done..|].
    by eapply well_typed_merged.
  - unfold delete_product. step_bind.
    destruct (negb (eq_str _ _)); [by intros [= _ <-]|].
    destruct (negb (bool_decide _)); intros [= _ <-]; [done|].
    by apply Forall_values_del.
  - intros [[-> _]|(old & z & Hf & _ & -> & _)]%update_stock_Ok; [done|].
    by eapply well_typed_adjusted.
  - by intros [= _ <-].
  - unfold add_supplier. step_bind.
    destruct (negb _); [by intros [= _ <-]|].
    step_bind. destruct a0; [by intros [= _ <-]|].
    step_bind. by intros [= _ <-].
Qed.

(** So does one that raises after it has written. *)
Lemma handle_wrote_well_typed req st e st' :
  typed_request req →
  Forall well_typed (idict_values (products st)) →
  handle req st = Wrote e st' →
  Forall well_typed (idict_values (products st')).
Proof.
  intros Hreq Hst [(i & a & -> & Hw)|(i & a & -> & Hw)]%handle_Wrote.
  - apply update_product_Wrote in Hw as (old & Hf & ->).
    by eapply well_typed_merged.
  - apply update_stock_Wrote in Hw as (old & z & Hf & ->).
    by eapply well_typed_adjusted.
Qed.

Lemma serve_well_typed req st o st' :
  typed_request req →
  Forall well_typed (idict_values (products st)) →
  serve req st = (o, st') →
  Forall well_typed (idict_values (products st')).
Proof.
  intros Hreq Hst. unfold serve.
  destruct (handle req st) as [[r st1]| | |] eqn:Hh; intros [= _ <-];
    eauto using handle_well_typed, handle_wrote_well_typed.
Qed.

Example lower_example : lower "Router X-500" = "router x-500".
Proof. reflexivity. Qed.

(** A created product is listed last. *)
Example created_product_listed_last :
  ∃ r st,
    add_product (<["product" := new_product_payload]> admin_auth) initial_store
    = Ok (r, st)
    ∧ idict_keys (products st) = [1; 2; 3; 4; 5]
    ∧ last (idict_values (products st))
      = Some (obj [ ("id", JInt 5); ("name", JStr "Patch Panel");
                    ("category", JStr "Networking");
                    ("stock_level", JInt 12); ("reorder_point", JInt 4) ]).
Proof. eexists _, _. split_and!; vm_compute; reflexivity. Qed.

(** ** Stored products are never empty

    The handlers treat an empty record as a missing product.  No run
    produces one, so that in every reachable store "the product exists"
    means that its id is a key of the collection. *)

Lemma transition_products_nonempty st a b st' :
  transition st a b st' →
  Forall (λ p, p ≠ ∅) (idict_values (products st)) →
  Forall (λ p, p ≠ ∅) (idict_values (products st')).
Proof.
  destruct 1 as [|k p Hk Hp|k|p Hp|s _]; simpl; try done.
  - intros Hst. by apply Forall_values_set.
  - apply Forall_values_del.
  - intros Hst. apply Forall_values_set; [done|].
    intros ->. unfold record_id in Hp. by rewrite lookup_empty in Hp.
Qed.

Lemma run_products_nonempty reqs outs st :
  run initial_store reqs = (outs, st) →
  Forall (λ p, p ≠ ∅) (idict_values (products st)).
Proof.
  assert (Forall (λ p : record, p ≠ ∅) (idict_values (products initial_store)))
    as Hinit.
  { repeat constructor; intros H;
      apply (f_equal (λ m : record, m !! "id")) in H; discriminate. }
  revert Hinit. generalize initial_store. revert outs.
  induction reqs as [|req reqs IH]; intros outs st0 Hst0.
  - by intros [= _ <-].
  - intros (o & st1 & outs1 & Hs & Hr & _)%run_cons.
    eapply IH; [|exact Hr].
    eapply transition_products_nonempty; [by apply serve_transition|done].
Qed.

Lemma find_product_reachable reqs outs st product_id :
  run initial_store reqs = (outs, st) →
  find_product product_id st = idict_get product_id (products st).
Proof.
  intros Hrun%run_products_nonempty. unfold find_product.
  destruct (idict_get product_id (products st)) as [p|] eqn:Hg; [|done].
  rewrite Forall_forall in Hrun.
  by rewrite bool_decide_eq_false_2 by by eapply Hrun, idict_get_elem_of.
Qed.

(** * Further properties of the handlers *)

(** ** Error answers *)

Lemma get_user_role_raises username password e :
  get_user_role username password = Raise e → e = TypeError.
Proof.
  unfold get_user_role. destruct (hashable username); [|by intros [= <-]].
  destruct username as [| | |name| |]; try done.
  destruct (users !! name) as [u|]; [|done].
  by destruct (eq_str password (user_password u)).
Qed.

Lemma login_answers auth_data r :
  login auth_data = Ok r →
  status r = 200 ∨ r = error_response 401 "Invalid credentials".
Proof.
  unfold login. step_bind. destruct (truthy a); intros [= <-]; auto.
Qed.

Lemma get_products_status args st r :
  get_products args st = Ok r → status r = 200.
Proof. unfold get_products. do 4 step_bind. by intros [= <-]. Qed.

Ltac error_answer :=
  intros [= <- <-] ? ?; simpl in *; try done;
  (split; [done|]; split; [tauto | by eexists]).

(** X1. A request that is answered with a status other than 200 and 201
    has changed nothing in the store; its status is 400, 401, 403 or 404
    and its body is an object with the single key ["error"]. *)
Theorem error_answers_change_nothing (req : request) (st st' : store)
    (r : response) :
  handle req st = Ok (r, st') →
  status r ≠ 200 → status r ≠ 201 →
  st' = st
  ∧ (status r = 400 ∨ status r = 401 ∨ status r = 403 ∨ status r = 404)
  ∧ ∃ msg, body r = JObj (obj [("error", JStr msg)]).
Proof.
  destruct req; cbn [handle].
  - step_bind; apply login_answers in Hb as [? | ->]; error_answer.
  - step_bind; apply get_products_status in Hb; error_answer.
  - unfold add_product. step_bind; destruct (negb _); [error_answer|].
    step_bind; destruct a0; [error_answer|]. do 4 step_bind; error_answer.
  - intros [[-> ->]|[[-> ->]|(old & _ & -> & _)]]%update_product_Ok ? ?;
      try done; (split; [done|]; split; [tauto | by eexists]).
  - unfold delete_product. step_bind;
      destruct (negb (eq_str _ _)); [error_answer|].
    destruct (negb (bool_decide _)); error_answer.
  - intros [[-> [->|[->| ->]]]|(old & z & _ & -> & _)]%update_stock_Ok ? ?;
      try done; (split; [done|]; split; [tauto | by eexists]).
  - unfold get_suppliers. cbn [res_bind]. error_answer.
  - unfold add_supplier. step_bind;
      destruct (negb (eq_str _ _)); [error_answer|].
    step_bind; destruct a0; [error_answer|]. step_bind; error_answer.
Qed.

Lemma error_answers_change_nothing_witness :
  (set_products initial_store (products initial_store)) = initial_store
  ∧ (status (error_response 403 "Unauthorized access") = 400
     ∨ status (error_response 403 "Unauthorized access") = 401
     ∨ status (error_response 403 "Unauthorized access") = 403
     ∨ status (error_response 403 "Unauthorized access") = 404)
  ∧ ∃ msg, body (error_response 403 "Unauthorized access")
           = JObj (obj [("error", JStr msg)]).
Proof.
  apply (error_answers_change_nothing (DeleteProduct 2 manager_auth)
           initial_store); [reflexivity | done | done].
Defined.

(** ** The role gate *)

(** The credentials a request carries, for the routes that look at them. *)
Definition auth_data_of (req : request) : option record :=
  match req with
  | PostProducts a | PutProduct _ a | DeleteProduct _ a | PutStock _ a
  | PostSuppliers a => Some a
  | PostLogin _ | GetProducts _ | GetSuppliers => None
  end.

(** The roles each guarded route lets through. *)
Definition allowed_roles (req : request) : list string :=
  match req with
  | PostProducts _ | PutProduct _ _ => ["Admin"; "Manager"]
  | DeleteProduct _ _ | PostSuppliers _ => ["Admin"]
  | PutStock _ _ => ["Admin"; "Manager"; "Staff"]
  | PostLogin _ | GetProducts _ | GetSuppliers => []
  end.

Definition permitted (req : request) (role : json) : Prop :=
  ∃ s, role = JStr s ∧ s ∈ allowed_roles req.

Lemma in_strs_true role l : in_strs role l = true ↔ ∃ s, role = JStr s ∧ s ∈ l.
Proof.
  unfold in_strs. rewrite existsb_exists. split.
  - intros (s & Hs%list_elem_of_In & He%eq_str_true). by exists s.
  - intros (s & -> & Hs). exists s. split; [by apply list_elem_of_In|].
    apply eq_str_refl.
Qed.

Lemma eq_str_in_strs role s : eq_str role s = in_strs role [s].
Proof. unfold in_strs. simpl. by rewrite orb_false_r. Qed.

(** X2. On the five guarded routes the role alone decides a 403: a role
    outside the route's list is answered 403 with the store unchanged,
    whatever the path id, the payload and the store are; a role in the list
    is never answered 403. *)
Theorem role_gate (req : request) (auth_data : record) (st : store)
    (role : json) :
  auth_data_of req = Some auth_data →
  request_role auth_data = Ok role →
  (¬ permitted req role →
   handle req st = Ok (error_response 403 "Unauthorized access", st))
  ∧ (permitted req role →
     ∀ r st', handle req st = Ok (r, st') → status r ≠ 403).
Proof.
  intros Ha Hr. unfold permitted. rewrite <- in_strs_true.
  destruct (in_strs role (allowed_roles req)) eqn:Hin;
    (split; [intros Hn | intros Hp r st']);
    try (by destruct Hn); try discriminate Hp;
    destruct req; try discriminate Ha; injection Ha as ->;
    cbn [allowed_roles] in Hin; cbn [handle];
    unfold add_product, update_product, delete_product, update_stock,
      add_supplier; rewrite Hr; cbn [res_bind];
    rewrite ?eq_str_in_strs, Hin; cbn [negb]; try done.
  - step_bind; destruct a; [by intros [= <- <-]|]. do 4 step_bind.
    by intros [= <- <-].
  - destruct (find_product product_id st); [|by intros [= <- <-]].
    cbv zeta. destruct (dict_update _ _).2; try done.
    by intros (-> & _)%respond_Ok.
  - destruct (negb (bool_decide _)); by intros [= <- <-].
  - destruct (find_product product_id st); [|by intros [= <- <-]].
    destruct (_ || _); [by intros [= <- <-]|]. do 2 step_bind.
    by intros (-> & _)%respond_Ok.
  - step_bind; destruct a; [by intros [= <- <-]|]. step_bind.
    by intros [= <- <-].
Qed.

Lemma role_gate_witness :
  handle (PostSuppliers manager_auth) initial_store
  = Ok (error_response 403 "Unauthorized access", initial_store).
Proof.
  apply (proj1 (role_gate (PostSuppliers manager_auth) manager_auth
                  initial_store (JStr "Manager") eq_refl eq_refl)).
  intros (s & [= <-] & Hs). by apply list_elem_of_singleton in Hs.
Defined.

(** ** More on integer-keyed dictionaries *)

Lemma idict_set_absent {V} (d : list (Z * V)) k v :
  k ∉ idict_keys d → idict_set k v d = d ++ [(k, v)].
Proof.
  induction d as [|[k' v'] d IH]; simpl; [done|].
  rewrite idict_keys_cons, not_elem_of_cons. intros [Hne Hk].
  case_decide; [done|]. by rewrite IH.
Qed.


Lemma idict_set_set {V} (d : list (Z * V)) k v1 v2 :
  idict_set k v2 (idict_set k v1 d) = idict_set k v2 d.
Proof.
  induction d as [|[k' v'] d IH]; simpl; repeat (case_decide; simpl);
    congruence.
Qed.

Lemma idict_del_not_in {V} (d : list (Z * V)) k :
  NoDup (idict_keys d) → k ∉ idict_keys (idict_del k d).
Proof.
  induction d as [|[k' v'] d IH]; simpl; [intros _; apply not_elem_of_nil|].
  rewrite idict_keys_cons, NoDup_cons. intros [Hk' Hd].
  case_decide; [by subst|].
  rewrite idict_keys_cons, not_elem_of_cons. auto.
Qed.

Lemma idict_values_del_sublist {V} (d : list (Z * V)) k :
  idict_values (idict_del k d) `sublist_of` idict_values d.
Proof.
  induction d as [|[k' v'] d IH]; simpl; [done|].
  change (idict_values ((k', v') :: d)) with (v' :: idict_values d).
  case_decide; [by apply sublist_cons|].
  change (idict_values ((k', v') :: idict_del k d))
    with (v' :: idict_values (idict_del k d)).
  by apply sublist_skip.
Qed.

Lemma find_product_missing product_id st :
  product_id ∉ idict_keys (products st) → find_product product_id st = None.
Proof. intros Hk%idict_get_None. unfold find_product. by rewrite Hk. Qed.

Lemma in_strs_editors role :
  role = "Admin" ∨ role = "Manager" →
  in_strs (JStr role) ["Admin"; "Manager"] = true.
Proof. by intros [-> | ->]. Qed.

(** ** Deleting a product *)

(** X3. With Admin credentials and a product id that is a key of the
    collection (whose keys are pairwise distinct), [DELETE /products/{id}]
    is answered 200, the id is no longer a key, the other products keep
    their records and their order, and the suppliers and counters are
    untouched.  Afterwards the same delete is answered 404, and so are an
    update and a stock adjustment of that id by any role allowed to make
    them. *)
Theorem delete_product_removes (product_id : Z) (auth_data : record)
    (st : store) :
  request_role auth_data = Ok (JStr "Admin") →
  NoDup (idict_keys (products st)) →
  product_id ∈ idict_keys (products st) →
  ∃ st',
    delete_product product_id auth_data st
      = Ok (Response 200 (JObj (obj [("message", JStr "Product deleted")])),
            st')
    ∧ (product_id ∉ idict_keys (products st'))
    ∧ (∀ other, other ≠ product_id →
         idict_get other (products st') = idict_get other (products st))
    ∧ (idict_values (products st') `sublist_of` idict_values (products st))
    ∧ product_id_counter st' = product_id_counter st
    ∧ suppliers st' = suppliers st
    ∧ supplier_id_counter st' = supplier_id_counter st
    ∧ delete_product product_id auth_data st'
      = Ok (error_response 404 "Product not found", st')
    ∧ (∀ a role, request_role a = Ok (JStr role) →
         role = "Admin" ∨ role = "Manager" →
         update_product product_id a st'
         = Ok (error_response 404 "Product not found", st'))
    ∧ (∀ a role, request_role a = Ok (JStr role) →
         role = "Admin" ∨ role = "Manager" ∨ role = "Staff" →
         update_stock product_id a st'
         = Ok (error_response 404 "Product not found", st')).
Proof.
  intros Hr Hn Hk.
  exists (set_products st (idict_del product_id (products st))).
  pose proof (idict_del_not_in _ product_id Hn) as Hgone.
  split_and!; try done.
  - unfold delete_product. rewrite Hr. cbn [res_bind].
    apply idict_get_is_Some in Hk. rewrite eq_str_refl. cbn [negb].
    case_bool_decide as Hd; [done | by destruct Hd].
  - intros other Hne. by apply idict_get_del_ne.
  - apply idict_values_del_sublist.
  - unfold delete_product. rewrite Hr. cbn [res_bind].
    apply idict_get_None in Hgone. rewrite eq_str_refl. cbn [negb].
    cbn [products set_products]. rewrite Hgone.
    case_bool_decide as Hd; [by destruct Hd | done].
  - intros a role Ha Hrole. unfold update_product. rewrite Ha.
    cbn [res_bind]. rewrite (in_strs_editors _ Hrole). cbn [negb].
    by rewrite find_product_missing.
  - intros a role Ha Hrole. unfold update_stock. rewrite Ha.
    cbn [res_bind]. rewrite (in_strs_roles _ Hrole). cbn [negb].
    by rewrite find_product_missing.
Qed.

Lemma delete_product_removes_witness :
  ∃ st',
    delete_product 3 admin_auth initial_store
      = Ok (Response 200 (JObj (obj [("message", JStr "Product deleted")])),
            st')
    ∧ (3 ∉ idict_keys (products st'))
    ∧ delete_product 3 admin_auth st'
      = Ok (error_response 404 "Product not found", st').
Proof.
  destruct (delete_product_removes 3 admin_auth initial_store)
    as (st' & Hd & Hgone & _ & _ & _ & _ & _ & Hagain & _).
  - reflexivity.
  - apply (bool_decide_unpack _). vm_compute. reflexivity.
  - apply (bool_decide_unpack _). vm_compute. reflexivity.
  - by exists st'.
Defined.

(** ** Creating a product *)

Definition product_fields : list string :=
  ["name"; "category"; "stock_level"; "reorder_point"].

Lemma all_contained_obj (keys : list string) (m : record) :
  all_contained keys (JObj m)
  = Ok (bool_decide (Forall (λ k, is_Some (m !! k)) keys)).
Proof.
  induction keys as [|k keys IH]; cbn [all_contained py_contains res_bind].
  - reflexivity.
  - destruct (decide (is_Some (m !! k))) as [Hk|Hk].
    + rewrite (bool_decide_eq_true_2 _ Hk), IH. f_equal.
      apply bool_decide_ext. rewrite Forall_cons. tauto.
    + rewrite (bool_decide_eq_false_2 _ Hk). f_equal. symmetry.
      apply bool_decide_eq_false_2. rewrite Forall_cons. tauto.
Qed.

Lemma missing_keys_obj (keys : list string) (m : record) :
  keys ≠ [] →
  missing_keys (JObj m) keys
  = Ok (negb (bool_decide (Forall (λ k, is_Some (m !! k)) keys))).
Proof.
  intros Hkeys. unfold missing_keys. simpl. case_bool_decide as Hm; simpl.
  - subst m. f_equal. symmetry. apply negb_true_iff, bool_decide_eq_false_2.
    destruct keys as [|k keys]; [done|]. rewrite Forall_cons.
    intros [[v Hv] _]. by rewrite lookup_empty in Hv.
  - by rewrite all_contained_obj.
Qed.

(** X4. For an Admin or a Manager, [POST /products] checks the presence of
    the four product fields and nothing else.  Without a ["product"] key,
    or with a product object that lacks one of the four fields, the answer
    is 400 and the store is unchanged.  With a product object that has all
    four, whatever their values, the answer is 201: the new record holds
    the counter as ["id"] and the four supplied values, and no other key of
    the payload (an ["id"] of its own included); it is stored under the
    counter, which goes up by one. *)
Theorem add_product_validation (auth_data : record) (st : store)
    (role : string) :
  request_role auth_data = Ok (JStr role) →
  role = "Admin" ∨ role = "Manager" →
  (auth_data !! "product" = None →
   add_product auth_data st
   = Ok (error_response 400 "Invalid product data", st))
  ∧ (∀ m, auth_data !! "product" = Some (JObj m) →
          ¬ Forall (λ k, is_Some (m !! k)) product_fields →
          add_product auth_data st
          = Ok (error_response 400 "Invalid product data", st))
  ∧ (∀ m name category stock reorder,
       auth_data !! "product" = Some (JObj m) →
       m !! "name" = Some name → m !! "category" = Some category →
       m !! "stock_level" = Some stock → m !! "reorder_point" = Some reorder →
       let new :=
         obj [ ("id", JInt (product_id_counter st)); ("name", name);
               ("category", category); ("stock_level", stock);
               ("reorder_point", reorder) ] in
       add_product auth_data st
       = Ok (Response 201 (JObj new),
             {| products :=
                  idict_set (product_id_counter st) new (products st);
                product_id_counter := product_id_counter st + 1;
                suppliers := suppliers st;
                supplier_id_counter := supplier_id_counter st |})).
Proof.
  intros Hr Hrole. split_and!.
  - intros Hp. unfold add_product. rewrite Hr. cbn [res_bind].
    rewrite (in_strs_editors _ Hrole). cbn [negb].
    unfold dict_get_default. by rewrite Hp.
  - intros m Hp Hm. unfold add_product. rewrite Hr. cbn [res_bind].
    rewrite (in_strs_editors _ Hrole). cbn [negb].
    assert (dict_get_default auth_data "product" (JObj ∅) = JObj m) as ->
      by (unfold dict_get_default; by rewrite Hp).
    rewrite missing_keys_obj by done. cbn [res_bind].
    by rewrite (bool_decide_eq_false_2 _ Hm).
  - intros m name category stock reorder Hp Hn Hc Hs Hre new.
    unfold add_product. rewrite Hr. cbn [res_bind].
    rewrite (in_strs_editors _ Hrole). cbn [negb].
    assert (dict_get_default auth_data "product" (JObj ∅) = JObj m) as ->
      by (unfold dict_get_default; by rewrite Hp).
    rewrite missing_keys_obj by done. cbn [res_bind].
    rewrite bool_decide_eq_true_2
      by (repeat constructor; by eexists). cbn [negb].
    unfold py_item, dict_item. by rewrite Hn, Hc, Hs, Hre.
Qed.

Lemma add_product_validation_witness :
  add_product
    (<["product" := JObj (obj [("name", JStr "Splitter");
                                ("category", JStr "Cables");
                                ("stock_level", JInt 3)])]> manager_auth)
    initial_store
  = Ok (error_response 400 "Invalid product data", initial_store).
Proof.
  destruct (add_product_validation
              (<["product" := JObj (obj [("name", JStr "Splitter");
                                          ("category", JStr "Cables");
                                          ("stock_level", JInt 3)])]>
                 manager_auth)
              initial_store "Manager") as (_ & H400 & _);
    [reflexivity | by right |].
  eapply H400; [reflexivity|].
  intros H. apply Forall_cons in H as [_ H].
  apply Forall_cons in H as [_ H]. apply Forall_cons in H as [_ H].
  apply Forall_cons in H as [[v Hv] _]. vm_compute in Hv. discriminate.
Defined.


Definition patch_panel : record :=
  obj [ ("id", JInt 5); ("name", JStr "Patch Panel");
        ("category", JStr "Networking"); ("stock_level", JInt 12);
        ("reorder_point", JInt 4) ].



(** ** Suppliers *)

(** X6. For an Admin, [POST /suppliers] checks the presence of ["name"]
    and nothing else.  Without a ["supplier"] key, or with a supplier
    object that has no ["name"], the answer is 400 and the store is
    unchanged.  With a name the answer is 201: the new record holds the
    counter as ["id"], the name, and the supplied ["contact_info"] or the
    empty string when there is none; it is stored under the counter, which
    goes up by one, and the products are untouched. *)
Theorem add_supplier_validation (auth_data : record) (st : store) :
  request_role auth_data = Ok (JStr "Admin") →
  (auth_data !! "supplier" = None →
   add_supplier auth_data st
   = Ok (error_response 400 "Invalid supplier data", st))
  ∧ (∀ m, auth_data !! "supplier" = Some (JObj m) → m !! "name" = None →
          add_supplier auth_data st
          = Ok (error_response 400 "Invalid supplier data", st))
  ∧ (∀ m name,
       auth_data !! "supplier" = Some (JObj m) → m !! "name" = Some name →
       let new :=
         obj [ ("id", JInt (supplier_id_counter st)); ("name", name);
               ("contact_info", default (JStr "") (m !! "contact_info")) ] in
       add_supplier auth_data st
       = Ok (Response 201 (JObj new),
             {| products := products st;
                product_id_counter := product_id_counter st;
                suppliers :=
                  idict_set (supplier_id_counter st) new (suppliers st);
                supplier_id_counter := supplier_id_counter st + 1 |})).
Proof.
  intros Hr. split_and!.
  - intros Hp. unfold add_supplier. rewrite Hr. cbn [res_bind].
    rewrite eq_str_refl. cbn [negb].
    unfold dict_get_default. by rewrite Hp.
  - intros m Hp Hm. unfold add_supplier. rewrite Hr. cbn [res_bind].
    rewrite eq_str_refl. cbn [negb].
    assert (dict_get_default auth_data "supplier" (JObj ∅) = JObj m) as ->
      by (unfold dict_get_default; by rewrite Hp).
    rewrite missing_keys_obj by done. cbn [res_bind].
    rewrite bool_decide_eq_false_2; [done|].
    intros [[v Hv] _]%Forall_cons. by rewrite Hm in Hv.
  - intros m name Hp Hn new. unfold add_supplier. rewrite Hr.
    cbn [res_bind]. rewrite eq_str_refl. cbn [negb].
    assert (dict_get_default auth_data "supplier" (JObj ∅) = JObj m) as ->
      by (unfold dict_get_default; by rewrite Hp).
    rewrite missing_keys_obj by done. cbn [res_bind].
    rewrite bool_decide_eq_true_2 by (repeat constructor; by eexists).
    cbn [negb]. unfold py_item, dict_item. by rewrite Hn.
Qed.

Lemma add_supplier_validation_witness :
  add_supplier
    (<["supplier" := JObj (obj [("name", JStr "Cable Co.")])]> admin_auth)
    initial_store
  = Ok (Response 201
          (JObj (obj [ ("id", JInt 3); ("name", JStr "Cable Co.");
                       ("contact_info", JStr "") ])),
        {| products := products initial_store;
           product_id_counter := 5;
           suppliers :=
             suppliers initial_store
             ++ [(3, obj [ ("id", JInt 3); ("name", JStr "Cable Co.");
                           ("contact_info", JStr "") ])];
           supplier_id_counter := 4 |}).
Proof.
  destruct (add_supplier_validation
              (<["supplier" := JObj (obj [("name", JStr "Cable Co.")])]>
                 admin_auth) initial_store) as (_ & _ & H201);
    [reflexivity|].
  by erewrite H201; [|reflexivity..].
Defined.

Lemma transition_suppliers st a b st' :
  transition st a b st' → ids_ok st →
  ∃ added, suppliers st' = suppliers st ++ added
           ∧ idict_keys added = option_list b.
Proof.
  intros Ht Hok. destruct Ht as [|k p Hk _|k|p _|s _]; simpl;
    try (exists []; by rewrite app_nil_r).
  exists [(supplier_id_counter st, s)]. split; [|done].
  apply idict_set_absent, below_fresh, Hok.
Qed.

(** X7. The supplier collection is append-only: after every run of the
    server from its initial state it is the initial collection, records
    unchanged, followed by the suppliers created during the run, in the
    order of their creation and under the ids that were handed out; this is
    what [GET /suppliers] lists. *)
Theorem suppliers_append_only (reqs : list request)
    (outs : list (res response)) (st : store) :
  run initial_store reqs = (outs, st) →
  ∃ added,
    suppliers st = suppliers initial_store ++ added
    ∧ idict_keys added = assigned created_supplier_id reqs outs
    ∧ get_suppliers st
      = Ok (Response 200
              (JList ((JObj <$> idict_values (suppliers initial_store))
                      ++ (JObj <$> idict_values added)))).
Proof.
  intros Hrun.
  assert (∃ added, suppliers st = suppliers initial_store ++ added
                   ∧ idict_keys added = assigned created_supplier_id reqs outs)
    as (added & Hs & Hk).
  { pose proof initial_store_ids_ok as Hok. revert Hok Hrun.
    generalize initial_store. revert outs.
    induction reqs as [|req reqs IH]; intros outs st0 Hok.
    - intros [= <- <-]. exists []. by rewrite app_nil_r.
    - intros (o & st1 & outs1 & Hserve & Hr & ->)%run_cons.
      pose proof (serve_transition _ _ _ _ Hserve) as Ht.
      destruct (transition_suppliers _ _ _ _ Ht Hok) as (add1 & Hs1 & Hk1).
      destruct (IH _ _ (transition_ids_ok _ _ _ _ Ht Hok) Hr)
        as (add2 & Hs2 & Hk2).
      exists (add1 ++ add2). split.
      + by rewrite Hs2, Hs1, (assoc_L (++)).
      + rewrite assigned_cons, <- Hk1, <- Hk2.
        unfold idict_keys. by rewrite fmap_app. }
  exists added. split_and!; [done..|].
  unfold get_suppliers. rewrite Hs. unfold idict_values.
  by rewrite !fmap_app.
Qed.

Lemma suppliers_append_only_witness :
  ∃ added,
    suppliers (run initial_store delete_then_create).2
    = suppliers initial_store ++ added
    ∧ idict_keys added
      = assigned created_supplier_id delete_then_create
          (run initial_store delete_then_create).1.
Proof.
  destruct (suppliers_append_only delete_then_create
              (run initial_store delete_then_create).1
              (run initial_store delete_then_create).2)
    as (added & Hs & Hk & _).
  - by destruct (run initial_store delete_then_create).
  - exists added. split; assumption.
Defined.

(** ** The product query on any store *)

Lemma filter_res_sublist {A} (f : A → res bool) (l r : list A) :
  filter_res f l = Ok r → r `sublist_of` l.
Proof.
  revert r. induction l as [|x l IH]; intros r; simpl.
  - by intros [= <-].
  - destruct (f x) as [b| | |]; [|done..]. cbn [res_bind].
    destruct (filter_res f l) as [r'| | |]; [|done..]. cbn [res_bind].
    intros [= <-]. destruct b; [apply sublist_skip | apply sublist_cons];
      by apply IH.
Qed.

Lemma filter_stage_sublist {A} (b : bool) (f : A → res bool) (l r : list A) :
  (if b then filter_res f l else Ok l) = Ok r → r `sublist_of` l.
Proof. destruct b; [apply filter_res_sublist | by intros [= <-]]. Qed.

(** X8. Whatever the store holds and whatever the filters are, an answer
    of [GET /products] has status 200 and lists stored products only, each
    at most as often as it is stored and in the order of the collection:
    the query never invents, duplicates or reorders a product. *)
Theorem get_products_sublist (args : gmap string string) (st : store)
    (r : response) :
  get_products args st = Ok r →
  ∃ l, r = Response 200 (JList (JObj <$> l))
       ∧ l `sublist_of` idict_values (products st).
Proof.
  unfold get_products.
  destruct (if nonempty (arg_lower args "name") then _ else _)
    as [l1| | |] eqn:H1; [|done..]. cbn [res_bind].
  destruct (if nonempty (arg_lower args "category") then _ else _)
    as [l2| | |] eqn:H2; [|done..]. cbn [res_bind].
  destruct (if nonempty (arg_lower args "stock_status") then _ else _)
    as [l3| | |] eqn:H3; [|done..]. cbn [res_bind].
  destruct (jsonify _) as [b| | |] eqn:Hb; [|done..]. cbn [res_bind].
  apply jsonify_Ok in Hb as [-> _].
  intros [= <-]. exists l3. split; [done|].
  apply filter_stage_sublist in H1, H2.
  assert (l3 `sublist_of` l2) as H3'.
  { destruct (nonempty (arg_lower args "stock_status"));
      [|by injection H3 as <-].
    destruct (String.eqb _ "low"); [by apply filter_res_sublist in H3|].
    destruct (String.eqb _ "out of stock");
      [by apply filter_res_sublist in H3 | by injection H3 as <-]. }
  by repeat (etrans; [eassumption|]).
Qed.

Lemma get_products_sublist_witness :
  ∃ l, Response 200
         (JList [JObj (mk_product 1 "Fiber Optic Cable" "Cables" 500 100)])
       = Response 200 (JList (JObj <$> l))
       ∧ l `sublist_of` idict_values (products initial_store).
Proof.
  apply (get_products_sublist {[ "name" := "FIBER" ]} initial_store).
  vm_compute. reflexivity.
Defined.

(** ** Runs of the server *)

Definition record_fields : list string :=
  ["id"; "name"; "category"; "stock_level"; "reorder_point"].

Definition has_fields (p : record) : Prop :=
  Forall (λ k, is_Some (p !! k)) record_fields.

(** An update given as a sequence of pairs, a stock adjustment that takes
    the stock level beyond 4300 digits, and queries. *)
Definition pairs_then_overflow : list request :=
  [ PutProduct 2
      (<["product" := JList [JList [JStr "name"; JInt 5]]]> admin_auth);
    overflow_stock;
    GetProducts {[ "name" := "cable" ]};
    GetProducts {[ "category" := "net" ]} ].

Ltac field_elem := apply list_elem_of_In; simpl; tauto.

Lemma has_fields_lookup p k :
  has_fields p → k ∈ record_fields → is_Some (p !! k).
Proof. unfold has_fields. rewrite Forall_forall. auto. Qed.

Lemma has_fields_mono (p q : record) :
  (∀ k, is_Some (p !! k) → is_Some (q !! k)) → has_fields p → has_fields q.
Proof. intros Hpq Hp. eapply Forall_impl; [exact Hp|]. simpl. auto. Qed.

Lemma has_fields_written st product_id old new :
  Forall has_fields (idict_values (products st)) →
  find_product product_id st = Some old →
  (∀ k, is_Some (old !! k) → is_Some (new !! k)) →
  Forall has_fields
    (idict_values (idict_set product_id new (products st))).
Proof.
  intros Hst [Hg _]%find_product_Some Hk.
  apply Forall_values_set; [done|].
  rewrite Forall_forall in Hst.
  eapply has_fields_mono; [exact Hk | by eapply Hst, idict_get_elem_of].
Qed.

Lemma merged_keys (m old : record) k :
  is_Some (old !! k) → is_Some ((m ∪ old) !! k).
Proof. intros [v Hv]. apply lookup_union_is_Some. right. by exists v. Qed.

Lemma adjusted_keys (old : record) v k :
  is_Some (old !! k) → is_Some (<["stock_level" := v]> old !! k).
Proof. intros Hk. apply lookup_insert_is_Some'. by right. Qed.

Lemma handle_has_fields req st r st' :
  Forall has_fields (idict_values (products st)) →
  handle req st = Ok (r, st') →
  Forall has_fields (idict_values (products st')).
Proof.
  intros Hst. destruct req; cbn [handle].
  - step_bind. by intros [= _ <-].
  - step_bind. by intros [= _ <-].
  - unfold add_product. step_bind; destruct (negb _); [by intros [= _ <-]|].
    step_bind; destruct a0; [by intros [= _ <-]|].
    do 4 step_bind; intros [= _ <-]. cbn [products].
    apply Forall_values_set; [done|]. repeat constructor; by eexists.
  - intros [[_ ->]|[[_ ->]|(old & Hf & _ & -> & _)]]%update_product_Ok;
      [done..|].
    eapply has_fields_written; [done..|]. apply merged_keys.
  - unfold delete_product. step_bind;
      destruct (negb (eq_str _ _)); [by intros [= _ <-]|].
    destruct (negb (bool_decide _)); intros [= _ <-]; [done|].
    by apply Forall_values_del.
  - intros [[-> _]|(old & z & Hf & _ & -> & _)]%update_stock_Ok; [done|].
    eapply has_fields_written; [done..|]. apply adjusted_keys.
  - by intros [= _ <-].
  - unfold add_supplier. step_bind;
      destruct (negb (eq_str _ _)); [by intros [= _ <-]|].
    step_bind; destruct a0; [by intros [= _ <-]|].
    step_bind; by intros [= _ <-].
Qed.

Lemma serve_has_fields req st o st' :
  Forall has_fields (idict_values (products st)) →
  serve req st = (o, st') →
  Forall has_fields (idict_values (products st')).
Proof.
  intros Hst. unfold serve.
  destruct (handle req st) as [[r st1]| | |] eqn:Hh; intros [= _ <-];
    [by eapply handle_has_fields|done| |done].
  apply handle_Wrote in Hh as [(i & a & -> & Hw)|(i & a & -> & Hw)].
  - apply update_product_Wrote in Hw as (old & Hf & ->).
    eapply has_fields_written; [done..|]. apply merged_keys.
  - apply update_stock_Wrote in Hw as (old & z & Hf & ->).
    eapply has_fields_written; [done..|]. apply adjusted_keys.
Qed.

Lemma py_lt_raises a b e : py_lt a b = Raise e → e = TypeError.
Proof.
  unfold py_lt. destruct a, b; simpl; try done; by intros [= <-].
Qed.

Lemma filter_res_raises {A} (f : A → res bool) (l : list A) e :
  filter_res f l = Raise e → ∃ x, x ∈ l ∧ f x = Raise e.
Proof.
  induction l as [|x l IH]; simpl; [done|].
  destruct (f x) as [b|e'| |] eqn:Hf; cbn [res_bind]; [| |done..].
  - destruct (filter_res f l) as [r|e'| |]; cbn [res_bind]; [done| |done..].
    intros [= <-]. destruct IH as (y & Hy & Hfy); [done|].
    exists y. split; [by right | done].
  - intros [= <-]. exists x. split; [by left | done].
Qed.

Lemma field_contains_raises field q p e :
  is_Some (p !! field) → field_contains field q p = Raise e →
  e = AttributeError.
Proof.
  intros [v Hv]. unfold field_contains, dict_item. rewrite Hv.
  cbn [res_bind]. destruct v; simpl; try done; by intros [= <-].
Qed.

Lemma is_low_raises p e :
  is_Some (p !! "stock_level") → is_Some (p !! "reorder_point") →
  is_low p = Raise e → e = TypeError.
Proof.
  intros [a Ha] [b Hb]. unfold is_low, dict_item. rewrite Ha, Hb.
  cbn [res_bind]. apply py_lt_raises.
Qed.

Lemma is_out_of_stock_raises p e :
  is_Some (p !! "stock_level") → is_out_of_stock p = Raise e → e = TypeError.
Proof.
  intros [a Ha]. unfold is_out_of_stock, dict_item. rewrite Ha.
  cbn [res_bind]. unfold py_le_zero. destruct (as_int a); [done|].
  by intros [= <-].
Qed.

Lemma filter_stage_Forall {A} (P : A → Prop) (b : bool) (f : A → res bool)
    (l r : list A) :
  (if b then filter_res f l else Ok l) = Ok r → Forall P l → Forall P r.
Proof. destruct b; [apply filter_res_Forall | by intros [= <-]]. Qed.

Lemma get_products_no_key_error args st e :
  Forall has_fields (idict_values (products st)) →
  get_products args st = Raise e → e ≠ KeyError.
Proof.
  intros Hst. unfold get_products.
  destruct (if nonempty (arg_lower args "name") then _ else _)
    as [l1|e1| |] eqn:H1; cbn [res_bind]; [| |done..].
  2: { intros [= <-]. destruct (nonempty (arg_lower args "name")); [|done].
       apply filter_res_raises in H1 as (p & Hp & Hf).
       rewrite Forall_forall in Hst.
       apply field_contains_raises in Hf as ->; [done|].
       apply has_fields_lookup; [by apply Hst | field_elem]. }
  pose proof (filter_stage_Forall _ _ _ _ _ H1 Hst) as Hl1.
  destruct (if nonempty (arg_lower args "category") then _ else _)
    as [l2|e2| |] eqn:H2; cbn [res_bind]; [| |done..].
  2: { intros [= <-]. destruct (nonempty (arg_lower args "category")); [|done].
       apply filter_res_raises in H2 as (p & Hp & Hf).
       rewrite Forall_forall in Hl1.
       apply field_contains_raises in Hf as ->; [done|].
       apply has_fields_lookup; [by apply Hl1 | field_elem]. }
  pose proof (filter_stage_Forall _ _ _ _ _ H2 Hl1) as Hl2.
  rewrite Forall_forall in Hl2.
  destruct (if nonempty (arg_lower args "stock_status") then _ else _)
    as [l3|e3| |] eqn:H3; cbn [res_bind]; [| |done..].
  { destruct (jsonify _) as [b|e4| |] eqn:Hj; cbn [res_bind]; try done.
    intros [= <-]. by apply jsonify_Raise in Hj as ->. }
  intros [= <-]. destruct (nonempty (arg_lower args "stock_status")); [|done].
  destruct (String.eqb _ "low").
  { apply filter_res_raises in H3 as (p & Hp & Hf).
    apply is_low_raises in Hf as ->; [done|..];
      (apply has_fields_lookup; [by apply Hl2 | field_elem]). }
  destruct (String.eqb _ "out of stock"); [|done].
  apply filter_res_raises in H3 as (p & Hp & Hf).
  apply is_out_of_stock_raises in Hf as ->; [done|].
  apply has_fields_lookup; [by apply Hl2 | field_elem].
Qed.

Lemma all_contained_raises keys data e :
  all_contained keys data = Raise e → e = TypeError.
Proof.
  induction keys as [|k keys IH]; cbn [all_contained]; [done|].
  destruct (py_contains k data) as [b|e'| |] eqn:Hc; cbn [res_bind];
    [| |done..].
  - destruct b; [exact IH | done].
  - intros [= <-]. destruct data; simpl in Hc; try done; by injection Hc.
Qed.

Lemma missing_keys_raises data keys e :
  missing_keys data keys = Raise e → e = TypeError.
Proof.
  unfold missing_keys. destruct (negb (truthy data)); [done|].
  destruct (all_contained keys data) as [b|e'| |] eqn:Ha; cbn [res_bind];
    [done| |done..].
  intros [= <-]. by eapply all_contained_raises.
Qed.

Lemma py_item_no_key_error data keys k e :
  missing_keys data keys = Ok false → k ∈ keys →
  py_item data k = Raise e → e = TypeError.
Proof.
  unfold missing_keys. destruct (negb (truthy data)); [done|].
  destruct data; simpl; try by intros _ _ [= <-].
  rewrite all_contained_obj. cbn [res_bind]. intros [= Hall] Hk.
  apply negb_false_iff, bool_decide_eq_true_1 in Hall.
  rewrite Forall_forall in Hall. destruct (Hall _ Hk) as [v Hv].
  unfold dict_item. by rewrite Hv.
Qed.

Lemma update_pair_raises x e :
  update_pair x = Raise e → e = TypeError ∨ e = ValueError.
Proof.
  destruct x as [| | |s|l|m]; simpl; try (intros [= <-]; tauto).
  - destruct s as [|a [|b [|c s]]]; try done; intros [= <-]; tauto.
  - destruct l as [|k [|v [|w l]]]; try (intros [= <-]; tauto).
    destruct k; try done; intros [= <-]; tauto.
  - case_decide; [done|]. intros [= <-]; tauto.
Qed.

Lemma update_pair_pure x e st : update_pair x = Wrote e st → False.
Proof.
  destruct x as [| | |s|l|m]; simpl; try done.
  - by destruct s as [|a [|b [|c s]]].
  - destruct l as [|k [|v [|w l]]]; try done. by destruct k.
  - by case_decide.
Qed.

(** How [dict.update] ends does not depend on the record it updates. *)
Lemma update_pairs_outcome p q l : (update_pairs p l).2 = (update_pairs q l).2.
Proof.
  revert p q. induction l as [|x l IH]; intros p q; simpl; [done|].
  destruct (update_pair x) as [[k v]| | |]; simpl; [apply IH|done..].
Qed.

Lemma dict_update_outcome p q u : (dict_update p u).2 = (dict_update q u).2.
Proof. destruct u; simpl; try done. apply update_pairs_outcome. Qed.

Lemma update_pairs_raises p l e :
  (update_pairs p l).2 = Raise e → e = TypeError ∨ e = ValueError.
Proof.
  revert p. induction l as [|x l IH]; intros p; simpl; [done|].
  destruct (update_pair x) as [[k v]| | |] eqn:Hx; simpl; try done.
  - apply IH.
  - intros [= <-]. by eapply update_pair_raises.
Qed.

Lemma update_pairs_pure p l e st : (update_pairs p l).2 = Wrote e st → False.
Proof.
  revert p. induction l as [|x l IH]; intros p; simpl; [done|].
  destruct (update_pair x) as [[k v]| | |] eqn:Hx; simpl; try done.
  - apply IH.
  - intros [= <- <-]. by eapply update_pair_pure.
Qed.

Lemma dict_update_raises p u e :
  (dict_update p u).2 = Raise e → e = TypeError ∨ e = ValueError.
Proof.
  destruct u as [| | |s|l|m]; simpl; try done;
    try (intros [= <-]; tauto).
  - destruct (nonempty s); [intros [= <-]; tauto | done].
  - apply update_pairs_raises.
Qed.

Lemma dict_update_pure p u e st : (dict_update p u).2 = Wrote e st → False.
Proof.
  destruct u as [| | |s|l|m]; simpl; try done.
  - by destruct (nonempty s).
  - apply update_pairs_pure.
Qed.

Lemma request_role_raises a e : request_role a = Raise e → e = TypeError.
Proof. apply get_user_role_raises. Qed.

Lemma py_add_int_raises a c e : py_add_int a c = Raise e → e = TypeError.
Proof. unfold py_add_int. destruct (as_int a); [done | by intros [= <-]]. Qed.

Lemma respond_raises code v st' e st1 :
  respond code v st' ≠ Raise e
  ∧ (respond code v st' = Wrote e st1 → e = ValueError).
Proof.
  rewrite respond_cases. destruct (serialisable v); split; try done.
  by intros [= <- _].
Qed.

Lemma handle_no_key_error req st e :
  Forall has_fields (idict_values (products st)) →
  handle req st = Raise e → e ≠ KeyError.
Proof.
  intros Hst. destruct req; cbn [handle].
  - destruct (login auth_data) as [r|e'| |] eqn:Hl; cbn [res_bind];
      [done| |done..].
    intros [= <-]. unfold login in Hl.
    destruct (get_user_role _ _) as [role|e''| |] eqn:Hr;
      cbn [res_bind] in Hl.
    + by destruct (truthy role).
    + injection Hl as <-. by apply get_user_role_raises in Hr as ->.
    + done.
    + done.
  - destruct (get_products args st) as [r|e'| |] eqn:Hg; cbn [res_bind];
      [done| |done..].
    intros [= <-]. by eapply get_products_no_key_error.
  - unfold add_product.
    destruct (request_role auth_data) as [role|e'| |] eqn:Hr; cbn [res_bind];
      [|intros [= <-]; by apply request_role_raises in Hr as ->|done..].
    destruct (negb _); [done|].
    destruct (missing_keys _ _) as [b|e'| |] eqn:Hm; cbn [res_bind];
      [|intros [= <-]; by apply missing_keys_raises in Hm as ->|done..].
    destruct b; [done|].
    repeat (match goal with
            | |- context [res_bind (py_item ?d ?k) _] =>
                let H := fresh "Hi" in
                destruct (py_item d k) as [?|?| |] eqn:H; cbn [res_bind];
                [|intros [= <-];
                  eapply py_item_no_key_error in H as ->;
                  [done|exact Hm|field_elem]
                 |done..]
            end).
    done.
  - unfold update_product.
    destruct (request_role auth_data) as [role|e'| |] eqn:Hr; cbn [res_bind];
      [|intros [= <-]; by apply request_role_raises in Hr as ->|done..].
    destruct (negb _); [done|].
    destruct (find_product product_id st) as [old|]; [|done].
    cbv zeta. destruct (dict_update _ _).2; try done.
    intros H. by apply respond_raises in H.
  - unfold delete_product.
    destruct (request_role auth_data) as [role|e'| |] eqn:Hr; cbn [res_bind];
      [|intros [= <-]; by apply request_role_raises in Hr as ->|done..].
    destruct (negb (eq_str _ _)); [done|]. by destruct (negb (bool_decide _)).
  - unfold update_stock.
    destruct (request_role auth_data) as [role|e'| |] eqn:Hr; cbn [res_bind];
      [|intros [= <-]; by apply request_role_raises in Hr as ->|done..].
    destruct (negb _); [done|].
    destruct (find_product product_id st) as [old|] eqn:Hf; [|done].
    destruct (_ || _); [done|].
    apply find_product_Some in Hf as [Hg _].
    rewrite Forall_forall in Hst.
    destruct (has_fields_lookup old "stock_level") as [v Hv];
      [by eapply Hst, idict_get_elem_of | field_elem |].
    unfold dict_item. rewrite Hv. cbn [res_bind].
    destruct (py_add_int _ _) as [n|e'| |] eqn:Hadd; cbn [res_bind];
      [|intros [= <-]; by apply py_add_int_raises in Hadd as ->|done..].
    intros H. by apply respond_raises in H.
  - done.
  - unfold add_supplier.
    destruct (request_role auth_data) as [role|e'| |] eqn:Hr; cbn [res_bind];
      [|intros [= <-]; by apply request_role_raises in Hr as ->|done..].
    destruct (negb (eq_str _ _)); [done|].
    destruct (missing_keys _ _) as [b|e'| |] eqn:Hm; cbn [res_bind];
      [|intros [= <-]; by apply missing_keys_raises in Hm as ->|done..].
    destruct b; [done|].
    destruct (py_item _ "name") as [?|?| |] eqn:Hi; cbn [res_bind];
      [done| |done..].
    intros [= <-].
    eapply py_item_no_key_error in Hi as ->; [done|exact Hm|field_elem].
Qed.

(** What is raised after a write is a [TypeError] or a [ValueError]. *)
Lemma handle_wrote_no_key_error req st e st' :
  handle req st = Wrote e st' → e ≠ KeyError.
Proof.
  intros [(i & a & -> & Hw)|(i & a & -> & Hw)]%handle_Wrote.
  - revert Hw. unfold update_product. step_bind. destruct (negb _); [done|].
    destruct (find_product i st) as [old|]; [|done]. cbv zeta.
    destruct (dict_update _ _).2 as [[]|e'|e' st1|] eqn:Hu; try done.
    + intros H. by apply respond_raises in H as ->.
    + intros [= <- _]. by apply dict_update_raises in Hu as [-> | ->].
    + by apply dict_update_pure in Hu.
  - revert Hw. unfold update_stock. step_bind. destruct (negb _); [done|].
    destruct (find_product i st) as [old|]; [|done].
    destruct (_ || _); [done|]. do 2 step_bind.
    intros H. by apply respond_raises in H as ->.
Qed.

Lemma initial_store_has_fields :
  Forall has_fields (idict_values (products initial_store)).
Proof. repeat constructor; by eexists. Qed.

(** X9. In every store the server reaches from its initial state, by a
    run whose requests are all within the model, each product still has
    the five fields it was created with, since no handler removes a key of
    a record; and no request of the run fails with a [KeyError]. *)
Theorem fields_never_missing (reqs : list request)
    (outs : list (res response)) (st : store) :
  run initial_store reqs = (outs, st) →
  Forall modelled outs →
  Forall has_fields (idict_values (products st))
  ∧ Forall (λ o, o ≠ Raise KeyError) outs.
Proof.
  pose proof initial_store_has_fields as Hinit. revert Hinit.
  generalize initial_store. revert outs.
  induction reqs as [|req reqs IH]; intros outs st0 Hst0.
  - intros [= <- <-]. by split.
  - intros (o & st1 & outs1 & Hs & Hr & ->)%run_cons
      [_ Hmod]%Forall_cons.
    destruct (IH _ _ (serve_has_fields _ _ _ _ Hst0 Hs) Hr Hmod) as [? ?].
    split; [done|]. constructor; [|done].
    intros ->. unfold serve in Hs.
    destruct (handle req st0) as [[r st2]|e|e st2|] eqn:Hh; try done.
    + injection Hs as -> _. by apply (handle_no_key_error _ _ _ Hst0 Hh).
    + injection Hs as -> _. by apply (handle_wrote_no_key_error _ _ _ _ Hh).
Qed.

Lemma fields_never_missing_witness :
  Forall has_fields
    (idict_values (products (run initial_store pairs_then_overflow).2))
  ∧ Forall (λ o, o ≠ Raise KeyError) (run initial_store pairs_then_overflow).1.
Proof.
  apply (fields_never_missing pairs_then_overflow).
  - by destruct (run initial_store pairs_then_overflow).
  - assert ((run initial_store pairs_then_overflow).1
            = [ Ok (Response 200
                      (JObj (obj [ ("id", JInt 2); ("name", JInt 5);
                                   ("category", JStr "Networking");
                                   ("stock_level", JInt 50);
                                   ("reorder_point", JInt 20) ])));
                Raise ValueError; Raise AttributeError; Raise ValueError ])
      as -> by (vm_compute; reflexivity).
    repeat constructor; discriminate.
Defined.

(** ** Well-typed runs *)

Lemma jsonify_unserialisable l :
  ¬ Forall serialisable_record l →
  jsonify (JList (JObj <$> l)) = Raise ValueError.
Proof.
  intros Hl. unfold jsonify.
  destruct (serialisable _) eqn:Hs; [|done].
  by apply serialisable_records in Hs.
Qed.

(** X10. When every create and update of a run carries strings in
    ["name"] and ["category"] and integers in ["stock_level"] and
    ["reorder_point"] (wherever it carries these fields), and every
    request of the run is within the model, every product of the resulting
    store has the fields of the data model, and [GET /products] never
    fails on the type of a field: for every combination of filters it
    answers 200 with exactly the products that satisfy them when these can
    be serialised, and raises [ValueError] when they cannot (a stock
    adjustment has produced an integer of more than 4300 digits). *)
Theorem typed_runs_keep_queries_total (reqs : list request)
    (outs : list (res response)) (st : store) :
  run initial_store reqs = (outs, st) →
  Forall typed_request reqs →
  Forall modelled outs →
  Forall well_typed (idict_values (products st))
  ∧ ∀ args,
      (Forall serialisable_record
         (filter (satisfies args) (idict_values (products st))) →
       get_products args st =
         Ok (Response 200
               (JList (JObj <$>
                  filter (satisfies args) (idict_values (products st))))))
      ∧ (¬ Forall serialisable_record
             (filter (satisfies args) (idict_values (products st))) →
         get_products args st = Raise ValueError).
Proof.
  intros Hrun Hreqs _.
  assert (Forall well_typed (idict_values (products st))) as Hst.
  { pose proof initial_store_well_typed as Hinit. revert Hinit Hrun.
    generalize initial_store. revert outs.
    induction Hreqs as [|req reqs Hreq _ IH]; intros outs st0 Hst0.
    - by intros [= _ <-].
    - intros (o & st1 & outs1 & Hs & Hr & _)%run_cons.
      eapply IH; [|exact Hr]. by eapply serve_well_typed. }
  split; [done|]. intros args. rewrite get_products_typed by done. split.
  - intros Hser. by rewrite jsonify_records.
  - intros Hser. by rewrite jsonify_unserialisable.
Qed.

(** A typed update given as a sequence of pairs, then a stock adjustment
    beyond 4300 digits. *)
Definition typed_pairs_then_overflow : list request :=
  [ PutProduct 2
      (<["product" := JList [JList [JStr "name"; JStr "Router X-600"]]]>
         admin_auth);
    overflow_stock ].

Lemma typed_runs_keep_queries_total_witness :
  Forall well_typed
    (idict_values (products (run initial_store typed_pairs_then_overflow).2))
  ∧ get_products {[ "name" := "router" ]}
      (run initial_store typed_pairs_then_overflow).2
    = Raise ValueError
  ∧ get_products {[ "name" := "modem" ]}
      (run initial_store typed_pairs_then_overflow).2
    = Ok (Response 200
            (JList [JObj (mk_product 3 "Modem Pro-100" "Networking" 75 15)])).
Proof.
  destruct (typed_runs_keep_queries_total typed_pairs_then_overflow
              (run initial_store typed_pairs_then_overflow).1
              (run initial_store typed_pairs_then_overflow).2)
    as [Htyped Hget].
  - by destruct (run initial_store typed_pairs_then_overflow).
  - repeat constructor; intros v Hv; vm_compute in Hv;
      try discriminate; injection Hv as <-; by eexists.
  - assert ((run initial_store typed_pairs_then_overflow).1
            = [ Ok (Response 200
                      (JObj (mk_product 2 "Router X-600" "Networking" 50 20)));
                Raise ValueError ])
      as -> by (vm_compute; reflexivity).
    repeat constructor; discriminate.
  - split; [exact Htyped|]. split.
    + apply (proj2 (Hget {[ "name" := "router" ]})).
      intros H. apply (bool_decide_eq_true_2 _) in H. revert H.
      vm_compute. discriminate.
    + refine (eq_trans (proj1 (Hget {[ "name" := "modem" ]}) _) _).
      * apply (bool_decide_unpack _). vm_compute. reflexivity.
      * vm_compute. reflexivity.
Defined.

(** ** Stock adjustments compose *)

Lemma serve_update_stock product_id auth_data st v st' :
  update_stock product_id auth_data st = respond 200 v st' →
  (serve (PutStock product_id auth_data) st).2 = st'.
Proof.
  intros H. unfold serve. cbn [handle]. rewrite H, respond_cases.
  by destruct (serialisable v).
Qed.

(** X11. Two stock adjustments in a row, by non-zero integers [c1] and
    [c2], of a product whose [stock_level] is the integer [s], leave the
    store as one adjustment by [c1 + c2] would: the level is
    [s + c1 + c2], whether or not the two requests could be answered.  In
    particular an adjustment followed by the opposite one restores the
    store exactly.  Each of the two requests is answered 200 with the
    product at its new level when that record can be serialised. *)
Theorem update_stock_composes (product_id : Z) (a1 a2 : record) (st : store)
    (role1 role2 : string) (product : record) (s c1 c2 : Z) :
  request_role a1 = Ok (JStr role1) →
  role1 = "Admin" ∨ role1 = "Manager" ∨ role1 = "Staff" →
  request_role a2 = Ok (JStr role2) →
  role2 = "Admin" ∨ role2 = "Manager" ∨ role2 = "Staff" →
  find_product product_id st = Some product →
  product !! "stock_level" = Some (JInt s) →
  a1 !! "change" = Some (JInt c1) → c1 ≠ 0 →
  a2 !! "change" = Some (JInt c2) → c2 ≠ 0 →
  ∃ st1 st2,
    (serve (PutStock product_id a1) st).2 = st1
    ∧ (serve (PutStock product_id a2) st1).2 = st2
    ∧ st2 = set_products st
              (idict_set product_id
                 (<["stock_level" := JInt (s + c1 + c2)]> product)
                 (products st))
    ∧ (c2 = - c1 → st2 = st)
    ∧ (serialisable_record (<["stock_level" := JInt (s + c1)]> product) →
       update_stock product_id a1 st
       = Ok (Response 200
               (JObj (<["stock_level" := JInt (s + c1)]> product)),
             st1))
    ∧ (serialisable_record (<["stock_level" := JInt (s + c1 + c2)]> product) →
       update_stock product_id a2 st1
       = Ok (Response 200
               (JObj (<["stock_level" := JInt (s + c1 + c2)]> product)),
             st2)).
Proof.
  intros Hr1 Hrole1 Hr2 Hrole2 Hf Hs Hc1 Hc10 Hc2 Hc20.
  set (p1 := <["stock_level" := JInt (s + c1)]> product).
  set (p2 := <["stock_level" := JInt (s + c1 + c2)]> product).
  exists (set_products st (idict_set product_id p1 (products st))),
    (set_products st (idict_set product_id p2 (products st))).
  assert (find_product product_id
            (set_products st (idict_set product_id p1 (products st)))
          = Some p1) as Hf1.
  { apply find_product_Some. split; [apply idict_get_set_eq|].
    apply insert_non_empty. }
  pose proof (update_stock_int _ _ _ role1 product s c1 Hr1 Hrole1 Hf Hs
                Hc1 Hc10) as H1.
  assert (update_stock product_id a2
            (set_products st (idict_set product_id p1 (products st)))
          = respond 200 (JObj p2)
              (set_products st (idict_set product_id p2 (products st))))
    as H2.
  { rewrite (update_stock_int _ _ _ role2 p1 (s + c1) c2 Hr2 Hrole2 Hf1)
      by (done || apply lookup_insert_eq).
    unfold p1, p2, set_products. cbn [products].
    by rewrite insert_insert_eq, idict_set_set. }
  split_and!.
  - by eapply serve_update_stock.
  - by eapply serve_update_stock.
  - done.
  - intros ->. apply find_product_Some in Hf as [Hg _]. unfold p2.
    replace (s + c1 + - c1) with s by lia.
    rewrite (insert_id _ _ _ Hs), (idict_set_id _ _ _ Hg). by destruct st.
  - intros Hser. rewrite H1. by apply respond_serialisable.
  - intros Hser. rewrite H2. by apply respond_serialisable.
Qed.

Lemma update_stock_composes_witness :
  ∃ st1 st2,
    (serve (PutStock 2 (<["change" := JInt 30]> manager_auth))
       initial_store).2 = st1
    ∧ (serve (PutStock 2 (<["change" := JInt (-30)]> staff_auth)) st1).2 = st2
    ∧ st2 = set_products initial_store
              (idict_set 2
                 (<["stock_level" := JInt (50 + 30 + -30)]>
                    (mk_product 2 "Router X-500" "Networking" 50 20))
                 (products initial_store))
    ∧ (-30 = - 30 → st2 = initial_store)
    ∧ (serialisable_record
         (<["stock_level" := JInt (50 + 30)]>
            (mk_product 2 "Router X-500" "Networking" 50 20)) →
       update_stock 2 (<["change" := JInt 30]> manager_auth) initial_store
       = Ok (Response 200
               (JObj (<["stock_level" := JInt (50 + 30)]>
                        (mk_product 2 "Router X-500" "Networking" 50 20))),
             st1))
    ∧ (serialisable_record
         (<["stock_level" := JInt (50 + 30 + -30)]>
            (mk_product 2 "Router X-500" "Networking" 50 20)) →
       update_stock 2 (<["change" := JInt (-30)]> staff_auth) st1
       = Ok (Response 200
               (JObj (<["stock_level" := JInt (50 + 30 + -30)]>
                        (mk_product 2 "Router X-500" "Networking" 50 20))),
             st2)).
Proof.
  apply (update_stock_composes 2 (<["change" := JInt 30]> manager_auth)
           (<["change" := JInt (-30)]> staff_auth) initial_store
           "Manager" "Staff"
           (mk_product 2 "Router X-500" "Networking" 50 20) 50 30 (-30));
    first [reflexivity | lia | (right; left; reflexivity)
          | (right; right; reflexivity)].
Defined.

(** ** Updating twice *)

(** X12. [PUT /products/{id}] is idempotent: whenever a request is
    answered, sending the same request again is answered in the same way
    and leaves the store as the first one left it. *)
Theorem update_product_idempotent (product_id : Z) (auth_data : record)
    (st st1 : store) (r : response) :
  update_product product_id auth_data st = Ok (r, st1) →
  update_product product_id auth_data st1 = Ok (r, st1).
Proof.
  unfold update_product.
  destruct (request_role auth_data) as [role| | |]; cbn [res_bind]; [|done..].
  destruct (negb _); [by intros [= <- <-]|].
  destruct (find_product product_id st) as [old|] eqn:Hf.
  2: { intros [= <- <-]. by rewrite Hf. }
  cbv zeta. rewrite dict_update_supplied.
  destruct (dict_update old _).2 as [[]| | |] eqn:Hu; try done.
  intros (-> & -> & Hser)%respond_Ok.
  apply find_product_Some in Hf as [Hg Hne].
  assert (find_product product_id
            (set_products st
               (idict_set product_id (supplied auth_data ∪ old) (products st)))
          = Some (supplied auth_data ∪ old)) as ->.
  { apply find_product_Some. split; [apply idict_get_set_eq|].
    by apply merged_non_empty. }
  rewrite dict_update_supplied.
  rewrite (dict_update_outcome _ old), Hu.
  rewrite (assoc_L (∪)), (idemp_L (∪)).
  cbn [products set_products]. rewrite idict_set_set.
  by apply respond_serialisable.
Qed.

Lemma update_product_idempotent_witness :
  update_product 2 stock_only_update
    (set_products initial_store
       (idict_set 2 (mk_product 2 "Router X-500" "Networking" 7 20)
          (products initial_store)))
  = Ok (Response 200 (JObj (mk_product 2 "Router X-500" "Networking" 7 20)),
        set_products initial_store
          (idict_set 2 (mk_product 2 "Router X-500" "Networking" 7 20)
             (products initial_store))).
Proof.
  apply (update_product_idempotent 2 stock_only_update initial_store).
  vm_compute. reflexivity.
Defined.

(** ** The validation of a stock change *)

(** X13. For an authorized role and a stored product, [update_stock]
    answers 400 "Invalid stock change value" (store unchanged) exactly when
    the change is missing, the integer 0, the boolean false, or neither an
    integer nor a boolean; for any other change an answer, if there is one,
    has status 200. *)
Theorem update_stock_bad_request_iff (product_id : Z) (auth_data : record)
    (st : store) (role : string) (product : record) :
  request_role auth_data = Ok (JStr role) →
  role = "Admin" ∨ role = "Manager" ∨ role = "Staff" →
  find_product product_id st = Some product →
  (rejected_change (auth_data !! "change") ↔
   update_stock product_id auth_data st
   = Ok (error_response 400 "Invalid stock change value", st))
  ∧ (¬ rejected_change (auth_data !! "change") →
     ∀ r st', update_stock product_id auth_data st = Ok (r, st') →
              status r = 200).
Proof.
  intros Hr Hrole Hf.
  assert (¬ rejected_change (auth_data !! "change") →
          ∀ r st', update_stock product_id auth_data st = Ok (r, st') →
                   status r = 200) as Hok.
  { intros Hn r st'. unfold update_stock. rewrite Hr, Hf. cbn [res_bind].
    rewrite (in_strs_roles _ Hrole). cbn [negb]. unfold dict_get_default.
    destruct (auth_data !! "change") as [[|[]|z| | |]|]; simpl in Hn;
      try (by destruct Hn); simpl.
    - do 2 step_bind; by intros (-> & _)%respond_Ok.
    - destruct (decide (z = 0)) as [->|Hz]; [by destruct Hn|].
      replace (eq_zero (JInt z)) with false
        by (symmetry; unfold eq_zero; by apply Z.eqb_neq).
      do 2 step_bind; by intros (-> & _)%respond_Ok. }
  split; [|exact Hok]. split.
  - by apply (update_stock_rejects _ _ _ role product).
  - intros H400.
    destruct (auth_data !! "change") as [[|[]|z| | |]|] eqn:Hc; simpl; try done.
    + assert (status (error_response 400 "Invalid stock change value") = 200)
        as Habs; [|discriminate Habs].
      eapply Hok; [|exact H400]. simpl. discriminate.
    + destruct (decide (z = 0)) as [->|Hz]; [done|].
      assert (status (error_response 400 "Invalid stock change value") = 200)
        as Habs; [|discriminate Habs].
      eapply Hok; [|exact H400]. exact Hz.
Qed.

Lemma update_stock_bad_request_iff_witness :
  (rejected_change (<["change" := JStr "5"]> staff_auth !! "change") ↔
   update_stock 2 (<["change" := JStr "5"]> staff_auth) initial_store
   = Ok (error_response 400 "Invalid stock change value", initial_store))
  ∧ (¬ rejected_change (<["change" := JStr "5"]> staff_auth !! "change") →
     ∀ r st',
       update_stock 2 (<["change" := JStr "5"]> staff_auth) initial_store
       = Ok (r, st') →
       status r = 200).
Proof.
  apply (update_stock_bad_request_iff 2 (<["change" := JStr "5"]> staff_auth)
           initial_store "Staff"
           (mk_product 2 "Router X-500" "Networking" 50 20));
    [reflexivity | right; right; reflexivity | reflexivity].
Defined.

(** ** Stock adjustments and the stock filters *)

Lemma satisfies_stock_status q p :
  satisfies {[ "stock_status" := q ]} p ↔
  (lower q = "low" → low_stock p) ∧ (lower q = "out of stock" → out_of_stock p).
Proof.
  unfold satisfies, name_filter, category_filter, stock_filter.
  rewrite lookup_singleton_eq, !lookup_singleton_ne by done. tauto.
Qed.

Lemma serialisable_adjusted (p : record) z :
  serialisable_record p → int_serialisable z = true →
  serialisable_record (<["stock_level" := JInt z]> p).
Proof.
  unfold serialisable_record. rewrite !serialisable_obj.
  intros Hp Hz. by apply map_Forall_insert_2.
Qed.

(** X14. Take a store of well-typed products that can be serialised, and
    a stock adjustment by a non-zero integer [c] of a product with integer
    [stock_level = s] and [reorder_point], such that [s + c] has at most
    4300 digits.  The adjustment is answered 200, and afterwards the
    adjusted product is listed by [GET /products?stock_status=low] exactly
    when [s + c] is below the reorder point, and by
    [stock_status=out of stock] exactly when [s + c <= 0]. *)
Theorem adjusted_stock_is_queried (product_id : Z) (auth_data : record)
    (st : store) (role : string) (product : record) (s c reorder : Z) :
  Forall well_typed (idict_values (products st)) →
  Forall serialisable_record (idict_values (products st)) →
  request_role auth_data = Ok (JStr role) →
  role = "Admin" ∨ role = "Manager" ∨ role = "Staff" →
  find_product product_id st = Some product →
  product !! "stock_level" = Some (JInt s) →
  product !! "reorder_point" = Some (JInt reorder) →
  auth_data !! "change" = Some (JInt c) →
  c ≠ 0 →
  int_serialisable (s + c) = true →
  ∃ new st' low out,
    update_stock product_id auth_data st = Ok (Response 200 (JObj new), st')
    ∧ get_products {[ "stock_status" := "low" ]} st'
      = Ok (Response 200 (JList (JObj <$> low)))
    ∧ get_products {[ "stock_status" := "out of stock" ]} st'
      = Ok (Response 200 (JList (JObj <$> out)))
    ∧ (new ∈ low ↔ s + c < reorder)
    ∧ (new ∈ out ↔ s + c ≤ 0).
Proof.
  intros Hst Hser Hr Hrole Hf Hs Hre Hc Hc0 Hsc.
  set (new := <["stock_level" := JInt (s + c)]> product).
  set (st' := set_products st (idict_set product_id new (products st))).
  pose proof Hf as [Hg _]%find_product_Some.
  assert (serialisable_record new) as Hnew.
  { apply serialisable_adjusted; [|done].
    rewrite Forall_forall in Hser. by eapply Hser, idict_get_elem_of. }
  assert (Forall well_typed (idict_values (products st'))) as Hst'
    by by eapply well_typed_adjusted.
  assert (Forall serialisable_record (idict_values (products st'))) as Hser'
    by by apply Forall_values_set.
  assert (new ∈ idict_values (products st')) as Hin.
  { eapply idict_get_elem_of. apply idict_get_set_eq. }
  assert (stock_level_of new = s + c) as Hlevel.
  { unfold stock_level_of, new. by rewrite lookup_insert_eq. }
  assert (reorder_point_of new = reorder) as Hpoint.
  { unfold reorder_point_of, new. by rewrite lookup_insert_ne, Hre. }
  exists new, st',
    (filter (satisfies {[ "stock_status" := "low" ]})
       (idict_values (products st'))),
    (filter (satisfies {[ "stock_status" := "out of stock" ]})
       (idict_values (products st'))).
  split_and!.
  - rewrite (update_stock_int _ _ _ role product s c) by done.
    by apply respond_serialisable.
  - rewrite get_products_typed, jsonify_records;
      [done | by apply Forall_filter_keep | done].
  - rewrite get_products_typed, jsonify_records;
      [done | by apply Forall_filter_keep | done].
  - rewrite list_elem_of_filter, satisfies_stock_status.
    unfold low_stock. rewrite Hlevel, Hpoint.
    change (lower "low") with "low". split; [intros [[H _] _]; by apply H|].
    intros Hlt. split; [|done]. split; [done | discriminate].
  - rewrite list_elem_of_filter, satisfies_stock_status.
    unfold out_of_stock. rewrite Hlevel.
    change (lower "out of stock") with "out of stock".
    split; [intros [[_ H] _]; by apply H|].
    intros Hle. split; [|done]. split; [discriminate | done].
Qed.

Lemma adjusted_stock_is_queried_witness :
  ∃ new st' low out,
    update_stock 2 (<["change" := JInt (-40)]> staff_auth) initial_store
      = Ok (Response 200 (JObj new), st')
    ∧ get_products {[ "stock_status" := "low" ]} st'
      = Ok (Response 200 (JList (JObj <$> low)))
    ∧ get_products {[ "stock_status" := "out of stock" ]} st'
      = Ok (Response 200 (JList (JObj <$> out)))
    ∧ (new ∈ low ↔ 50 + -40 < 20)
    ∧ (new ∈ out ↔ 50 + -40 ≤ 0).
Proof.
  apply (adjusted_stock_is_queried 2 (<["change" := JInt (-40)]> staff_auth)
           initial_store "Staff"
           (mk_product 2 "Router X-500" "Networking" 50 20) 50 (-40) 20);
    [exact initial_store_well_typed | exact initial_store_serialisable
    | reflexivity | right; right; reflexivity | reflexivity | reflexivity
    | reflexivity | reflexivity | lia | vm_compute; reflexivity].
Defined.

(** ** Creating and deleting *)

Lemma idict_del_set_absent {V} (d : list (Z * V)) k v :
  k ∉ idict_keys d → idict_del k (idict_set k v d) = d.
Proof.
  induction d as [|[k' v'] d IH]; simpl.
  - intros _. by rewrite decide_True.
  - rewrite idict_keys_cons, not_elem_of_cons. intros [Hne Hk].
    rewrite decide_False by done. simpl. rewrite decide_False by done.
    by rewrite IH.
Qed.

(** X15. Deleting a product right after it was created (with Admin
    credentials, and the counter not already a key) restores the product
    collection exactly; the counter is not taken back, so the id is spent. *)
Theorem create_then_delete (auth_data admin : record) (st st1 : store)
    (r : response) :
  add_product auth_data st = Ok (r, st1) →
  status r = 201 →
  product_id_counter st ∉ idict_keys (products st) →
  request_role admin = Ok (JStr "Admin") →
  ∃ st2,
    delete_product (product_id_counter st) admin st1
    = Ok (Response 200 (JObj (obj [("message", JStr "Product deleted")])), st2)
    ∧ products st2 = products st
    ∧ product_id_counter st2 = product_id_counter st + 1
    ∧ suppliers st2 = suppliers st
    ∧ supplier_id_counter st2 = supplier_id_counter st.
Proof.
  unfold add_product. step_bind; destruct (negb _); [intros; by simplify_eq/=|].
  step_bind; destruct a0; [intros; by simplify_eq/=|].
  do 4 step_bind; intros [= <- <-] _ Hfresh Hadmin.
  eexists. split.
  - unfold delete_product. rewrite Hadmin. cbn [res_bind].
    rewrite eq_str_refl. cbn [negb products].
    rewrite idict_get_set_eq.
    rewrite bool_decide_eq_true_2 by by eexists. cbn [negb]. reflexivity.
  - cbn [products set_products product_id_counter suppliers
         supplier_id_counter].
    by rewrite idict_del_set_absent.
Qed.

Lemma create_then_delete_witness :
  ∃ st2,
    delete_product (product_id_counter initial_store) admin_auth
      {| products := products initial_store ++ [(5, patch_panel)];
         product_id_counter := 6;
         suppliers := suppliers initial_store;
         supplier_id_counter := 3 |}
    = Ok (Response 200 (JObj (obj [("message", JStr "Product deleted")])), st2)
    ∧ products st2 = products initial_store
    ∧ product_id_counter st2 = product_id_counter initial_store + 1
    ∧ suppliers st2 = suppliers initial_store
    ∧ supplier_id_counter st2 = supplier_id_counter initial_store.
Proof.
  apply (create_then_delete
           (<["product" := new_product_payload]> admin_auth) admin_auth
           initial_store _ (Response 201 (JObj patch_panel))).
  - vm_compute. reflexivity.
  - reflexivity.
  - apply (bool_decide_unpack _). vm_compute. reflexivity.
  - reflexivity.
Defined.

(** ** Login and the guarded routes *)

(** X16. [login] and the guarded routes judge the same credentials alike:
    a body for which [login] answers 401 is answered 403 "Unauthorized
    access" by every guarded route, whatever else it holds and with the
    store unchanged; a body for which [login] answers 200 resolves to one of
    the three roles, which is the role [login] reports; and a body on which
    [login] raises makes every guarded route raise the same exception. *)
Theorem login_agrees_with_guard (req : request) (auth_data : record)
    (st : store) (out : res response) :
  auth_data_of req = Some auth_data →
  login auth_data = out →
  match out with
  | Ok r =>
      (status r = 401 →
       handle req st = Ok (error_response 403 "Unauthorized access", st))
      ∧ (status r = 200 →
         ∃ role, (role = "Admin" ∨ role = "Manager" ∨ role = "Staff")
                 ∧ request_role auth_data = Ok (JStr role)
                 ∧ body r = JObj (obj [ ("message", JStr "Login successful");
                                        ("username", dict_get auth_data "username");
                                        ("role", JStr role) ]))
  | Raise e => handle req st = Raise e
  | Wrote _ _ | NotModelled => False
  end.
Proof.
  intros Ha <-. unfold login.
  change (get_user_role _ _) with (request_role auth_data).
  destruct (request_role auth_data) as [role|e|e st'|] eqn:Hr;
    cbn [res_bind].
  - pose proof (get_user_role_cases _ _ _ Hr) as [->|Hrole].
    + simpl. split; [intros _|discriminate].
      destruct req; try discriminate Ha; injection Ha as ->; cbn [handle];
        unfold add_product, update_product, delete_product, update_stock,
          add_supplier; by rewrite Hr.
    + assert (∃ s, role = JStr s
                   ∧ (s = "Admin" ∨ s = "Manager" ∨ s = "Staff")) as (s & -> & Hs).
      { destruct Hrole as [->|[->| ->]]; eexists; split; eauto. }
      replace (truthy (JStr s)) with true
        by (destruct Hs as [->|[->| ->]]; reflexivity).
      split; [discriminate|]. intros _. by exists s.
  - destruct req; try discriminate Ha; injection Ha as ->; cbn [handle];
      unfold add_product, update_product, delete_product, update_stock,
        add_supplier; by rewrite Hr.
  - by apply request_role_pure in Hr.
  - unfold request_role, get_user_role in Hr.
    destruct (hashable _); [|done].
    destruct (dict_get auth_data "username") as [| | |name| |]; try done.
    destruct (users !! name) as [u|]; [|done].
    by destruct (eq_str _ _).
Qed.

Lemma login_agrees_with_guard_witness :
  handle (PutStock 2 (<["change" := JInt 5]>
                        (credentials "staff" "letmein")))
    initial_store
  = Ok (error_response 403 "Unauthorized access", initial_store).
Proof.
  apply (login_agrees_with_guard
           (PutStock 2 (<["change" := JInt 5]>
                          (credentials "staff" "letmein")))
           (<["change" := JInt 5]>
              (credentials "staff" "letmein"))
           initial_store
           (Ok (error_response 401 "Invalid credentials"))
           eq_refl).
  - vm_compute. reflexivity.
  - reflexivity.
Defined.
